(** * Photos-Wall-3D: the pose-driven interaction controller

    A shallow embedding of the TypeScript sources

    - [utils/poseUtils]  (landmark geometry and the wide-arms classifier),
    - [App]              (pose signal aggregation, focus trigger, timers),
    - [components/PhotoWall]  (layout of the cards on a sphere),
    - [components/PhotoCard]  (per-frame interpolation of a card),

    together with the properties of the specification that concern them.

    Numbers.  JavaScript numbers are IEEE doubles; coordinates, angles and
    frame deltas are idealised here as real numbers ([R]), so rounding is
    not part of the model.  Timestamps ([Date.now()], milliseconds) are
    integers ([Z]); a draw of [Math.random()] is a rational ([Q]). *)

From Stdlib Require Import Reals Lra Lia ZArith QArith Qround List Bool String.
From Stdlib Require Import DecimalString.
Import ListNotations.

(** ** JavaScript values and exceptions *)

Module JS.

(** The only exception the modelled code can raise: reading a property of
    [undefined] or [null]. *)
Inductive Error : Set := TypeError.

(** Result of running a JavaScript function body. *)
Inductive Outcome (A : Type) : Type :=
| Returned (a : A)
| Thrown (e : Error).
Arguments Returned {A} a.
Arguments Thrown {A} e.

Definition bind {A B} (m : Outcome A) (k : A -> Outcome B) : Outcome B :=
  match m with
  | Returned a => k a
  | Thrown e => Thrown e
  end.

(** [o.p] for a possibly undefined [o]: the object must exist before one
    of its properties is read. *)
Definition deref {A} (o : option A) : Outcome A :=
  match o with
  | Some a => Returned a
  | None => Thrown TypeError
  end.

(** [a[i]] on an array whose slots may hold [undefined]: out of range and
    empty slots both read as [undefined]. *)
Definition index {A} (a : list (option A)) (i : nat) : option A :=
  match nth_error a i with
  | Some (Some v) => Some v
  | _ => None
  end.

(** [a < b] on numbers. *)
Definition Rltb (a b : R) : bool := if Rlt_dec a b then true else false.

End JS.

Notation "x <- m ;; k" := (JS.bind m (fun x => k))
(at level 61, m at next level, right associativity).

(** ** utils/poseUtils *)

Module PoseUtils.
Import JS.
Local Open Scope R_scope.

(** One MediaPipe landmark: normalised image coordinates and an optional
    visibility. *)
Record Landmark : Type := mkLandmark {
  x : R;
  y : R;
  visibility : option R
}.

(** [landmarks: any[]]: a slot is a landmark or [undefined]. *)
Definition Landmarks : Type := list (option Landmark).

(** The [{ x, y }] returned by [getCenterOffset]; the fields are named
    apart from those of a landmark. *)
Record Offset : Type := mkOffset { ox : R; oy : R }.

Definition shoulderWidth (leftShoulder rightShoulder : Landmark) : R :=
  sqrt ((x leftShoulder - x rightShoulder) ^ 2 +
        (y leftShoulder - y rightShoulder) ^ 2).

Definition wristDistanceX (leftWrist rightWrist : Landmark) : R :=
  Rabs (x leftWrist - x rightWrist).

Definition isWide (leftShoulder rightShoulder leftWrist rightWrist : Landmark)
  : bool :=
  Rltb (shoulderWidth leftShoulder rightShoulder * 2)
       (wristDistanceX leftWrist rightWrist).

Definition areWristsElevated
  (leftShoulder rightShoulder leftWrist rightWrist : Landmark) : bool :=
  Rltb (y leftWrist) (y leftShoulder + 0.15) &&
  Rltb (y rightWrist) (y rightShoulder + 0.15).

(** [detectArmsSpread(landmarks)]; [None] is a missing argument
    ([!landmarks]). *)
Definition detectArmsSpread (landmarks : option Landmarks) : Outcome bool :=
  match landmarks with
  | None => Returned false
  | Some landmarks =>
      if (List.length landmarks <? 17)%nat then Returned false
      else
        leftShoulder <- deref (index landmarks 11) ;;
        rightShoulder <- deref (index landmarks 12) ;;
        leftWrist <- deref (index landmarks 15) ;;
        rightWrist <- deref (index landmarks 16) ;;
        Returned (isWide leftShoulder rightShoulder leftWrist rightWrist &&
                  areWristsElevated leftShoulder rightShoulder
                                    leftWrist rightWrist)
  end.

Definition relevantIndices : list nat := [11; 12; 23; 24]%nat.

(** The body of the [forEach] callback of [getCenterOffset], on the
    accumulators [(sumX, sumY, count)]. *)
Definition addLandmark (landmarks : Landmarks) (acc : R * R * nat)
  (idx : nat) : R * R * nat :=
  let '(sumX, sumY, count) := acc in
  match index landmarks idx with
  | Some lm => (sumX + x lm, sumY + y lm, S count)
  | None => acc
  end.

Definition getCenterOffset (landmarks : option Landmarks) : Offset :=
  match landmarks with
  | None => mkOffset 0 0
  | Some [] => mkOffset 0 0
  | Some landmarks =>
      let '(sumX, sumY, count) :=
        fold_left (addLandmark landmarks) relevantIndices (0, 0, O) in
      if (count =? 0)%nat then mkOffset 0 0
      else mkOffset ((sumX / INR count - 0.5) * 2)
                    ((sumY / INR count - 0.5) * 2)
  end.

(** Uniform scaling of the plane by [s] around the anchor [(ax, ay)]. *)
Definition scaleLandmark (s ax ay : R) (lm : Landmark) : Landmark :=
  mkLandmark (ax + s * (x lm - ax)) (ay + s * (y lm - ay)) (visibility lm).


(** Translation of the plane by [(dx, dy)]. *)
Definition translateLandmark (dx dy : R) (lm : Landmark) : Landmark :=
  mkLandmark (x lm + dx) (y lm + dy) (visibility lm).

Definition translateLandmarks (dx dy : R) (landmarks : Landmarks) : Landmarks :=
  map (option_map (translateLandmark dx dy)) landmarks.

(** The image flipped left to right: [x] becomes [1 - x]. *)
Definition mirrorLandmark (lm : Landmark) : Landmark :=
  mkLandmark (1 - x lm) (y lm) (visibility lm).

Definition mirrorLandmarks (landmarks : Landmarks) : Landmarks :=
  map (option_map mirrorLandmark) landmarks.

End PoseUtils.

(** ** types.ts *)

Module Types.

Record PoseData : Type := mkPoseData {
  x : R;
  y : R;
  isArmsSpread : bool;
  score : R
}.

Record PhotoItem : Type := mkPhotoItem {
  id : string;
  url : string
}.

End Types.

(** ** App: pose signal aggregation and the focus trigger *)

Module App.
Import JS Types.

(** What a pending [setTimeout] will run. *)
Inductive Callback : Set :=
| ClearFocus          (** [() => setFocusedId(null)] *)
| HideInstructions.   (** [() => setShowInstructions(false)] *)

Record Timer : Type := mkTimer {
  timerId : nat;
  fireAt : Z;
  callback : Callback
}.

(** The cleanup functions returned by the two effects. *)
Inductive Cleanup : Set :=
| StopPose                                (** closes the pose instance, stops the camera *)
| ClearInstructionsTimer (timer : nat).   (** [() => clearTimeout(timer)] *)

(** React state, refs and the browser's timer queue. *)
Record State : Type := mkState {
  photos : list PhotoItem;
  pose : option PoseData;
  focusedId : option string;
  showInstructions : bool;
  lastFocusTime : Z;
  timers : list Timer;
  nextTimer : nat;
  poseOpen : bool;
  cameraRunning : bool;
  cleanups : list Cleanup
}.

(** A handler runs on the state and returns or throws; writes made before
    a throw stay. *)
Definition M (A : Type) : Type := State -> State * Outcome A.

Definition ret {A} (a : A) : M A := fun st => (st, Returned a).

Definition bindM {A B} (m : M A) (k : A -> M B) : M B :=
  fun st =>
    match m st with
    | (st', Returned a) => k a st'
    | (st', Thrown e) => (st', Thrown e)
    end.

Definition get : M State := fun st => (st, Returned st).

Definition modify (f : State -> State) : M unit :=
  fun st => (f st, Returned tt).

Definition lift {A} (o : Outcome A) : M A := fun st => (st, o).

Declare Scope app_scope.
Delimit Scope app_scope with app.
Notation "x <~ m ;; k" := (bindM m (fun x => k))
  (at level 61, m at next level, right associativity) : app_scope.
Notation "m ;;; k" := (bindM m (fun _ => k))
  (at level 61, right associativity) : app_scope.
Local Open Scope app_scope.

Definition setPose (p : option PoseData) (st : State) : State :=
  mkState (photos st) p (focusedId st) (showInstructions st)
          (lastFocusTime st) (timers st) (nextTimer st)
          (poseOpen st) (cameraRunning st) (cleanups st).

Definition setFocusedId (f : option string) (st : State) : State :=
  mkState (photos st) (pose st) f (showInstructions st)
          (lastFocusTime st) (timers st) (nextTimer st)
          (poseOpen st) (cameraRunning st) (cleanups st).

Definition setShowInstructions (b : bool) (st : State) : State :=
  mkState (photos st) (pose st) (focusedId st) b
          (lastFocusTime st) (timers st) (nextTimer st)
          (poseOpen st) (cameraRunning st) (cleanups st).

Definition setLastFocusTime (t : Z) (st : State) : State :=
  mkState (photos st) (pose st) (focusedId st) (showInstructions st)
          t (timers st) (nextTimer st)
          (poseOpen st) (cameraRunning st) (cleanups st).

Definition setTimers (ts : list Timer) (st : State) : State :=
  mkState (photos st) (pose st) (focusedId st) (showInstructions st)
          (lastFocusTime st) ts (nextTimer st)
          (poseOpen st) (cameraRunning st) (cleanups st).

(** [setTimeout(cb, delay)] called at time [now]; returns the timer id. *)
Definition setTimeout (cb : Callback) (delay now : Z) : M nat :=
  fun st =>
    let t := mkTimer (nextTimer st) (now + delay) cb in
    (mkState (photos st) (pose st) (focusedId st) (showInstructions st)
             (lastFocusTime st) (timers st ++ [t]) (S (nextTimer st))
             (poseOpen st) (cameraRunning st) (cleanups st),
     Returned (nextTimer st)).

(** [clearTimeout(timer)]. *)
Definition clearTimeout (timer : nat) (st : State) : State :=
  setTimers (filter (fun t => negb (timerId t =? timer)%nat) (timers st)) st.

(** JavaScript truthiness of [string | null]: [null] and the empty string
    are falsy. *)
Definition truthy (s : option string) : bool :=
  match s with
  | Some s => negb (String.eqb s EmptyString)
  | None => false
  end.

(** [photos[i]] for a number [i]. *)
Definition photoAt (ps : list PhotoItem) (i : Z) : option PhotoItem :=
  if (i <? 0)%Z then None else nth_error ps (Z.to_nat i).

(** [triggerRandomFocus], with [now] the value of [Date.now()] and
    [random] the value of [Math.random()].  [focusedId] and [photos] are
    read from the current state: the callback is rebuilt whenever either
    changes. *)
Definition triggerRandomFocus (now : Z) (random : Q) : M unit :=
  st <~ get ;;
  if truthy (focusedId st) || (now - lastFocusTime st <? 5000)%Z then ret tt
  else
    modify (setLastFocusTime now) ;;;
    let randomIndex :=
      Qfloor (random * inject_Z (Z.of_nat (List.length (photos st)))) in
    selected <~ lift (deref (photoAt (photos st) randomIndex)) ;;
    modify (setFocusedId (Some (id selected))) ;;;
    _ <~ setTimeout ClearFocus 5000 now ;;
    ret tt.

(** A MediaPipe [results] event. *)
Record Results : Type := mkResults {
  poseLandmarks : option PoseUtils.Landmarks
}.

(** [results.poseLandmarks[0]?.visibility ?? 0.5] *)
Definition visibilityOrDefault (landmarks : PoseUtils.Landmarks) : R :=
  match index landmarks 0 with
  | Some lm =>
      match PoseUtils.visibility lm with
      | Some v => v
      | None => 0.5%R
      end
  | None => 0.5%R
  end.

(** [onResults]; the drawing of the feedback skeleton on the canvas that
    follows is not part of the model. *)
Definition onResults (results : Results) (now : Z) (random : Q) : M unit :=
  match poseLandmarks results with
  | None => modify (setPose None)
  | Some [] => modify (setPose None)
  | Some landmarks =>
      let offset := PoseUtils.getCenterOffset (Some landmarks) in
      isArmsSpread <~ lift (PoseUtils.detectArmsSpread (Some landmarks)) ;;
      modify (setPose (Some (mkPoseData (PoseUtils.ox offset)
                                        (PoseUtils.oy offset)
                                        isArmsSpread
                                        (visibilityOrDefault landmarks)))) ;;;
      if isArmsSpread then triggerRandomFocus now random else ret tt
  end.

(** The body of a timer callback. *)
Definition runCallback (cb : Callback) (st : State) : State :=
  match cb with
  | ClearFocus => setFocusedId None st
  | HideInstructions => setShowInstructions false st
  end.

(** The browser fires the pending timer [timer]: it leaves the queue and
    its callback runs.  A timer that was cleared is no longer pending and
    nothing runs. *)
Definition fire (timer : nat) (st : State) : State :=
  match find (fun t => (timerId t =? timer)%nat) (timers st) with
  | Some t => runCallback (callback t) (clearTimeout timer st)
  | None => st
  end.

(** The cleanup of the MediaPipe effect: [poseRef.current.close()] and
    [cameraInstance.stop()]. *)
Definition stopPose (st : State) : State :=
  mkState (photos st) (pose st) (focusedId st) (showInstructions st)
          (lastFocusTime st) (timers st) (nextTimer st)
          false false (cleanups st).

Definition runCleanup (c : Cleanup) (st : State) : State :=
  match c with
  | StopPose => stopPose st
  | ClearInstructionsTimer timer => clearTimeout timer st
  end.

(** Unmounting the component runs the cleanup of every effect. *)
Definition unmount (st : State) : State :=
  let st' := fold_left (fun s c => runCleanup c s) (cleanups st) st in
  mkState (photos st') (pose st') (focusedId st') (showInstructions st')
          (lastFocusTime st') (timers st') (nextTimer st')
          (poseOpen st') (cameraRunning st') [].

(** [SAMPLE_PHOTOS]: eighty items [photo-0] ... [photo-79]. *)
Definition decimal (i : nat) : string :=
  NilEmpty.string_of_uint (Nat.to_uint i).

Definition SAMPLE_PHOTOS : list PhotoItem :=
  map (fun i =>
         mkPhotoItem ("photo-" ++ decimal i)
                     ("https://picsum.photos/seed/school-" ++ decimal i
                      ++ "/600/800"))
      (seq 0 80).

(** The component after its first render, mounted at time [now]: both
    effects have run. *)
Definition mounted (now : Z) : State :=
  mkState SAMPLE_PHOTOS None None true 0 [mkTimer 0 (now + 8000) HideInstructions]
          1 true true [StopPose; ClearInstructionsTimer 0].

(** [autoRotate={!pose || pose.score < 0.3}] of the orbit controls. *)
Definition autoRotate (st : State) : bool :=
  match pose st with
  | None => true
  | Some p => Rltb (score p) 0.3
  end.

(** What the browser delivers to the mounted component: a MediaPipe result
    (with the clock and the random draw its handler will read), a timer that
    fires, the unmounting. *)
Inductive Event : Type :=
| Sample (results : Results) (now : Z) (random : Q)
| Fire (timer : nat)
| Unmount.

(** One turn of the event loop.  An exception that escapes a handler ends
    the handler; what it wrote before stays. *)
Definition step (e : Event) (st : State) : State :=
  match e with
  | Sample results now random => fst (onResults results now random st)
  | Fire timer => fire timer st
  | Unmount => unmount st
  end.

Definition run (es : list Event) (st : State) : State :=
  fold_left (fun s e => step e s) es st.

End App.

(** ** three.js values used by the components *)

Module Three.
Local Open Scope R_scope.

Record Vector3 : Type := mkVector3 { vx : R; vy : R; vz : R }.

(** Modelled from the spec: [Vector3.lerp] belongs to three.js, which is not
    part of the repository; it is the linear interpolation
    [this + (v - this) * alpha] of the specification's [lerp], applied to
    each coordinate, with [alpha] used as given. *)
Definition lerp (this v : Vector3) (alpha : R) : Vector3 :=
  mkVector3 (vx this + (vx v - vx this) * alpha)
            (vy this + (vy v - vy this) * alpha)
            (vz this + (vz v - vz this) * alpha).

Definition origin : Vector3 := mkVector3 0 0 0.

(** Euclidean distance between two points. *)
Definition distanceTo (a b : Vector3) : R :=
  sqrt ((vx a - vx b) ^ 2 + (vy a - vy b) ^ 2 + (vz a - vz b) ^ 2).

(** Euler angles and quaternions are only passed around. *)
Definition Euler : Type := (R * R * R)%type.
Definition Quaternion : Type := (R * R * R * R)%type.

(** Modelled from the spec: [MathUtils.lerp] belongs to three.js as well;
    it is the linear interpolation [(1 - t) * x + t * y] of two numbers, with
    [t] used as given. *)
Definition mathLerp (x y t : R) : R := (1 - t) * x + t * y.

End Three.

(** ** components/PhotoWall: the layout on the sphere *)

Module PhotoWall.
Import Types Three.
Local Open Scope R_scope.

Record CardData : Type := mkCardData {
  id : string;
  url : string;
  position : Vector3;
  rotation : Euler
}.

Definition radius : R := 10.

Section Layout.

(** [dummy.position.copy(pos); dummy.lookAt(0, 0, 0); dummy.rotation]: the
    Euler angles three.js computes for an object at [pos] that faces the
    origin. *)
Variable lookAtOrigin : Vector3 -> Euler.

(** The callback of [photos.map((p, i) => ...)]. *)
Definition card (count : nat) (p : PhotoItem) (i : nat) : CardData :=
  let phi := acos (-1 + (2 * INR i) / INR count) in
  let theta := sqrt (INR count * PI) * phi in
  let x := radius * cos theta * sin phi in
  let y := radius * sin theta * sin phi in
  let z := radius * cos phi in
  let pos := mkVector3 x y z in
  mkCardData (Types.id p) (Types.url p) pos (lookAtOrigin pos).

Fixpoint mapFrom {A B} (f : A -> nat -> B) (i : nat) (l : list A) : list B :=
  match l with
  | [] => []
  | a :: l' => f a i :: mapFrom f (S i) l'
  end.

Definition cardData (photos : list PhotoItem) : list CardData :=
  let count := List.length photos in
  mapFrom (card count) 0 photos.

End Layout.

(** [isFocused={focusedId === data.id}] *)
Definition isFocused (focusedId : option string) (data : CardData) : bool :=
  match focusedId with
  | Some f => String.eqb f (id data)
  | None => false
  end.

(** The [useFrame] callback of the wall, on the rotation [(x, y, z)] of the
    mounted group: it follows the pose when the score exceeds 0.3 and turns
    slowly otherwise. *)
Definition frame (pose : option PoseData) (delta : R) (wall : Euler) : Euler :=
  let '(rx, ry, rz) := wall in
  match pose with
  | Some p =>
      if JS.Rltb 0.3 (score p) then
        let targetRotationY := - Types.x p * 0.5 in
        let targetRotationX := Types.y p * 0.3 in
        (mathLerp rx targetRotationX (delta * 3),
         mathLerp ry targetRotationY (delta * 3),
         rz)
      else (rx, ry + delta * 0.1, rz)
  | None => (rx, ry + delta * 0.1, rz)
  end.

End PhotoWall.

(** ** components/PhotoCard: the per-frame animation of one card *)

Module PhotoCard.
Import Three.
Local Open Scope R_scope.

(** The animated part of the card's group: [position], [quaternion],
    [scale]. *)
Record Transform : Type := mkTransform {
  position : Vector3;
  quaternion : Quaternion;
  scale : Vector3
}.

(** Where a focused card is drawn to, in the parent's local space:
    [localFocusPos] and [localFocusQuat], which three.js derives from the
    camera and the parent group. *)
Record Focus : Type := mkFocus {
  localFocusPos : Vector3;
  localFocusQuat : Quaternion
}.

Section Frame.

(** [Quaternion.slerp] of three.js. *)
Variable slerp : Quaternion -> Quaternion -> R -> Quaternion.

(** The [useFrame] callback for a mounted card.  [parent] is [None] when the
    group has no parent; [targetPos] and [targetQuat] are the card's place
    in the wall. *)
Definition frame (isFocused : bool) (parent : option Focus)
  (targetPos : Vector3) (targetQuat : Quaternion)
  (delta : R) (mesh : Transform) : Transform :=
  if isFocused then
    let mesh :=
      match parent with
      | Some f =>
          mkTransform (lerp (position mesh) (localFocusPos f) (delta * 7))
                      (slerp (quaternion mesh) (localFocusQuat f) (delta * 7))
                      (scale mesh)
      | None => mesh
      end in
    mkTransform (position mesh) (quaternion mesh)
                (lerp (scale mesh) (mkVector3 4.5 4.5 1) (delta * 7))
  else
    mkTransform (lerp (position mesh) targetPos (delta * 3))
                (slerp (quaternion mesh) targetQuat (delta * 3))
                (lerp (scale mesh) (mkVector3 1 1 1) (delta * 3)).

End Frame.

End PhotoCard.

(** ** Consistency of the focus state *)

Module FocusInvariant.
Import Types App.

Definition isClearFocus (t : Timer) : bool :=
  match callback t with
  | ClearFocus => true
  | HideInstructions => false
  end.

(** The pending auto-releases. *)
Definition autoReleases (st : State) : list Timer :=
  filter isClearFocus (timers st).

(** Timer ids are handed out in increasing order and never twice. *)
Definition timersConsistent (st : State) : Prop :=
  Forall (fun t => (timerId t < nextTimer st)%nat) (timers st) /\
  NoDup (map timerId (timers st)).

(** Idle: no auto-release is pending.  Focused: the focused id is the id of
    a photo of the gallery and exactly one auto-release is pending, due
    5000 ms after the trigger. *)
Definition focusConsistent (st : State) : Prop :=
  match focusedId st with
  | None => autoReleases st = []
  | Some f =>
      (exists p, In p (photos st) /\ id p = f) /\
      exists k,
        autoReleases st = [mkTimer k (lastFocusTime st + 5000) ClearFocus]
  end.

(** The cleanup of the instructions effect holds the id of a timer set
    earlier, which hides the instructions if it is still pending. *)
Definition cleanupsConsistent (st : State) : Prop :=
  forall k, In (ClearInstructionsTimer k) (cleanups st) ->
    (k < nextTimer st)%nat /\
    forall t, In t (timers st) -> timerId t = k ->
              callback t = HideInstructions.

Definition wellFormed (st : State) : Prop :=
  Forall (fun p => id p <> EmptyString) (photos st) /\
  timersConsistent st /\ focusConsistent st /\ cleanupsConsistent st.

End FocusInvariant.

(** ** Sample inputs *)

Module Samples.
Import PoseUtils.
Local Open Scope R_scope.

(** A 17-slot array holding only the shoulders (11, 12) and the wrists
    (15, 16). *)
Definition upperBody (leftShoulder rightShoulder leftWrist rightWrist : Landmark)
  : Landmarks :=
  repeat None 11 ++
  [Some leftShoulder; Some rightShoulder; None; None;
   Some leftWrist; Some rightWrist].

Definition at_ (px py : R) : Landmark := mkLandmark px py None.

(** Shoulders 0.2 apart, arms stretched out at shoulder height. *)
Definition armsSpread : Landmarks :=
  upperBody (at_ 0.4 0.5) (at_ 0.6 0.5) (at_ 0 0.45) (at_ 1 0.45).

(** The same shoulders, wrists only 0.4 apart. *)
Definition armsNarrow : Landmarks :=
  upperBody (at_ 0.4 0.5) (at_ 0.6 0.5) (at_ 0.3 0.45) (at_ 0.7 0.45).


(** Thirteen slots: nothing but the two shoulders. *)
Definition shouldersOnly : Landmarks :=
  repeat None 11 ++ [Some (at_ 0.7 0.4); Some (at_ 0.9 0.4)].

(** [armsSpread] with a landmark in slot 0 as well. *)
Definition armsSpreadWithNose : Landmarks :=
  Some (mkLandmark 0.5 0.2 (Some 0.9)) :: tl armsSpread.



(** The sample gallery with [photo-7] focused at time 10000. *)
Definition photo7Focused : App.State :=
  App.mkState App.SAMPLE_PHOTOS None (Some "photo-7"%string) false 10000
    [App.mkTimer 1 15000 App.ClearFocus] 2 true true [App.StopPose].

(** Thirty-three landmarks, none missing: a subject in the middle of the
    image with the arms stretched out. *)
Definition tPose : list Landmark :=
  map (fun i =>
         if (i =? 11)%nat then at_ 0.4 0.5
         else if (i =? 12)%nat then at_ 0.6 0.5
         else if (i =? 15)%nat then at_ 0 0.45
         else if (i =? 16)%nat then at_ 1 0.45
         else at_ 0.5 0.5)
      (seq 0 33).

(** A gallery of two photos. *)
Definition twoPhotos : list Types.PhotoItem :=
  [Types.mkPhotoItem "a" "a.png"; Types.mkPhotoItem "b" "b.png"]%string.

(** A subject seen with confidence, a little right of and below the centre. *)
Definition seenPose : Types.PoseData := Types.mkPoseData 0.4 0.2 false 0.9.

(** Stand-ins for the two three.js operations the model leaves open; the
    positions and scales computed below do not depend on them. *)
Definition noRotation : Three.Vector3 -> Three.Euler :=
  fun _ => (0, 0, 0).

Definition keepOrientation
  : Three.Quaternion -> Three.Quaternion -> R -> Three.Quaternion :=
  fun q _ _ => q.

Definition identityQuat : Three.Quaternion := (0, 0, 0, 1).

(** A card resting at the origin of the wall, at scale one. *)
Definition restingCard : PhotoCard.Transform :=
  PhotoCard.mkTransform (Three.mkVector3 0 0 0) identityQuat
                        (Three.mkVector3 1 1 1).

(** The sample gallery under other names. *)
Definition renamedPhotos : list Types.PhotoItem :=
  map (fun p => Types.mkPhotoItem (Types.url p) (Types.id p)) App.SAMPLE_PHOTOS.

End Samples.

(** * Properties *)

Import JS.

(** ** Comparison of numbers *)

Lemma Rltb_true (a b : R) : Rltb a b = true <-> (a < b)%R.
Proof.
  unfold Rltb; destruct (Rlt_dec a b); split; intros; try easy.
Qed.

Lemma Rltb_false (a b : R) : Rltb a b = false <-> ~ (a < b)%R.
Proof.
  unfold Rltb; destruct (Rlt_dec a b); split; intros; try easy.
Qed.

(** ** poseUtils *)

Section PoseUtilsFacts.
Import PoseUtils.
Local Open Scope R_scope.


Lemma detectArmsSpread_short (lms : Landmarks) :
  (List.length lms < 17)%nat -> detectArmsSpread (Some lms) = Returned false.
Proof.
  intros H; unfold detectArmsSpread.
  now rewrite (proj2 (Nat.ltb_lt _ _) H).
Qed.









(** With seventeen slots or more, the classifier reads slots 11, 12, 15 and
    16 and throws when one of them is empty. *)
Lemma detectArmsSpread_long (lms : Landmarks) :
  (17 <= List.length lms)%nat ->
  detectArmsSpread (Some lms) =
  (leftShoulder <- deref (index lms 11) ;;
   rightShoulder <- deref (index lms 12) ;;
   leftWrist <- deref (index lms 15) ;;
   rightWrist <- deref (index lms 16) ;;
   Returned (isWide leftShoulder rightShoulder leftWrist rightWrist &&
             areWristsElevated leftShoulder rightShoulder leftWrist rightWrist)).
Proof.
  intros H; unfold detectArmsSpread.
  now rewrite (proj2 (Nat.ltb_ge _ _) H).
Qed.

(** Square roots of the sample shoulder widths. *)
Lemma sqrt_of_square (a b : R) : 0 <= b -> a = b ^ 2 -> sqrt a = b.
Proof. intros Hb ->; now apply sqrt_pow2. Qed.

Ltac shoulder_width w :=
  unfold shoulderWidth, wristDistanceX, Samples.at_, scaleLandmark;
  cbn [x y];
  match goal with
  | |- context [sqrt ?e] =>
      replace (sqrt e) with w by (symmetry; apply sqrt_of_square; lra)
  end.


Example armsNarrow_rejected :
  detectArmsSpread (Some Samples.armsNarrow) = Returned false.
Proof.
  rewrite detectArmsSpread_long by (cbn; lia).
  cbn [Samples.armsNarrow Samples.upperBody repeat app index nth_error
       deref JS.bind].
  f_equal; apply andb_false_iff; left.
  apply Rltb_false. shoulder_width 0.2.
  rewrite Rabs_left; lra.
Qed.








(** C10: [detectArmsSpread] reads nothing but the length of the array and
    its slots 11, 12, 15 and 16: two arrays of one length, at least
    seventeen, that agree on these slots give the same outcome. *)
Theorem detectArmsSpread_reads_four_slots (lms1 lms2 : Landmarks) :
  List.length lms1 = List.length lms2 ->
  (17 <= List.length lms1)%nat ->
  nth_error lms1 11 = nth_error lms2 11 ->
  nth_error lms1 12 = nth_error lms2 12 ->
  nth_error lms1 15 = nth_error lms2 15 ->
  nth_error lms1 16 = nth_error lms2 16 ->
  detectArmsSpread (Some lms1) = detectArmsSpread (Some lms2).
Proof.
  intros Hlen H17 H11 H12 H15 H16.
  rewrite !detectArmsSpread_long by lia.
  unfold index; now rewrite H11, H12, H15, H16.
Qed.

Lemma detectArmsSpread_reads_four_slots_witness :
  detectArmsSpread (Some Samples.armsSpreadWithNose) =
  detectArmsSpread (Some Samples.armsSpread).
Proof.
  apply (detectArmsSpread_reads_four_slots
           Samples.armsSpreadWithNose Samples.armsSpread);
    first [reflexivity | cbn; lia].
Defined.

End PoseUtilsFacts.

(** ** App: the focus trigger *)

Section AppFacts.
Import Types App.
Local Open Scope app_scope.

(** [Math.floor(Math.random() * n)] is an index below [n]. *)
Lemma randomIndex_range (random : Q) (n : nat) :
  (0 <= random)%Q -> (random < 1)%Q -> (0 < n)%nat ->
  (0 <= Qfloor (random * inject_Z (Z.of_nat n)) < Z.of_nat n)%Z.
Proof.
  intros H0 H1 Hn.
  assert (Hpos : (0 < inject_Z (Z.of_nat n))%Q)
    by (rewrite <- (Zlt_Qlt 0); lia).
  split.
  - change 0%Z with (Qfloor 0).
    apply Qfloor_resp_le.
    apply Qmult_le_0_compat; [exact H0 | now apply Qlt_le_weak].
  - rewrite Zlt_Qlt.
    eapply Qle_lt_trans; [apply Qfloor_le|].
    rewrite <- (Qmult_1_l (inject_Z (Z.of_nat n))) at 2.
    now apply Qmult_lt_compat_r.
Qed.

Lemma photoAt_random (ps : list PhotoItem) (random : Q) :
  (0 <= random)%Q -> (random < 1)%Q -> ps <> [] ->
  exists p,
    photoAt ps (Qfloor (random * inject_Z (Z.of_nat (List.length ps)))) = Some p /\
    In p ps.
Proof.
  intros H0 H1 Hne.
  assert (Hn : (0 < List.length ps)%nat)
    by (destruct ps; [congruence | cbn; lia]).
  pose proof (randomIndex_range random _ H0 H1 Hn) as [Hlo Hhi].
  unfold photoAt.
  rewrite (proj2 (Z.ltb_ge _ _) Hlo).
  destruct (nth_error ps (Z.to_nat (Qfloor (random * inject_Z (Z.of_nat (List.length ps))))))
    as [p|] eqn:E.
  - exists p; split; [reflexivity | now apply nth_error_In in E].
  - apply nth_error_None in E; lia.
Qed.

(** The two sides of the gate of [triggerRandomFocus]. *)
Lemma triggerRandomFocus_rejected (now : Z) (random : Q) (st : State) :
  truthy (focusedId st) || (now - lastFocusTime st <? 5000)%Z = true ->
  triggerRandomFocus now random st = (st, Returned tt).
Proof.
  unfold triggerRandomFocus, bindM, get; intros ->; reflexivity.
Qed.

Lemma triggerRandomFocus_accepted (now : Z) (random : Q) (st : State) :
  truthy (focusedId st) || (now - lastFocusTime st <? 5000)%Z = false ->
  triggerRandomFocus now random st =
  match photoAt (photos st)
          (Qfloor (random * inject_Z (Z.of_nat (List.length (photos st))))) with
  | Some selected =>
      (mkState (photos st) (pose st) (Some (id selected)) (showInstructions st)
               now (timers st ++ [mkTimer (nextTimer st) (now + 5000) ClearFocus])
               (S (nextTimer st)) (poseOpen st) (cameraRunning st) (cleanups st),
       Returned tt)
  | None => (setLastFocusTime now st, Thrown TypeError)
  end.
Proof.
  unfold triggerRandomFocus, bindM, get; intros ->.
  cbn [modify lift setLastFocusTime photos].
  destruct (photoAt _ _); reflexivity.
Qed.


(** A timer set with a fresh id is the one the browser finds under that
    id. *)
Lemma find_fresh_timer (ts : list Timer) (n : nat) (t : Timer) :
  Forall (fun tm => (timerId tm < n)%nat) ts -> timerId t = n ->
  find (fun tm => (timerId tm =? n)%nat) (ts ++ [t]) = Some t.
Proof.
  intros Hfresh Ht; induction Hfresh as [|tm ts Hlt _ IH]; cbn.
  - now rewrite Ht, Nat.eqb_refl.
  - now rewrite (proj2 (Nat.eqb_neq _ _)) by lia.
Qed.



(** C4: from Idle, a trigger accepted at time [t] focuses a photo of the
    gallery; a gesture 4999 ms later triggers nothing, whether the photo is
    still focused or not; once the auto-release has fired, a gesture at
    [t + 5001] is accepted and focuses a photo again. *)
Theorem focus_cooldown (st : State) (t : Z) (r1 r2 r3 : Q) :
  photos st <> [] ->
  Forall (fun tm => (timerId tm < nextTimer st)%nat) (timers st) ->
  (0 <= r1)%Q -> (r1 < 1)%Q -> (0 <= r3)%Q -> (r3 < 1)%Q ->
  focusedId st = None ->
  (5000 <= t - lastFocusTime st)%Z ->
  let st1 := fst (triggerRandomFocus t r1 st) in
  let st2 := fire (nextTimer st) st1 in
  let st3 := fst (triggerRandomFocus (t + 5001) r3 st2) in
  snd (triggerRandomFocus t r1 st) = Returned tt /\
  (exists p, In p (photos st) /\ focusedId st1 = Some (id p)) /\
  lastFocusTime st1 = t /\
  In (mkTimer (nextTimer st) (t + 5000) ClearFocus) (timers st1) /\
  triggerRandomFocus (t + 4999) r2 st1 = (st1, Returned tt) /\
  triggerRandomFocus (t + 4999) r2 (setFocusedId None st1) =
    (setFocusedId None st1, Returned tt) /\
  focusedId st2 = None /\
  snd (triggerRandomFocus (t + 5001) r3 st2) = Returned tt /\
  (exists q, In q (photos st) /\ focusedId st3 = Some (id q)) /\
  lastFocusTime st3 = (t + 5001)%Z.
Proof.
  intros Hne Hfresh H1lo H1hi H3lo H3hi Hidle Hcool; cbv zeta.
  destruct (photoAt_random (photos st) r1 H1lo H1hi Hne) as [p [Hp Hin]].
  destruct (photoAt_random (photos st) r3 H3lo H3hi Hne) as [q [Hq Hinq]].
  set (ts1 := timers st ++ [mkTimer (nextTimer st) (t + 5000) ClearFocus]).
  set (s1 := mkState (photos st) (pose st) (Some (id p)) (showInstructions st)
               t ts1 (S (nextTimer st)) (poseOpen st) (cameraRunning st)
               (cleanups st)).
  assert (E1 : triggerRandomFocus t r1 st = (s1, Returned tt)).
  { rewrite triggerRandomFocus_accepted, Hp; [reflexivity|].
    rewrite Hidle; cbn [truthy orb]; apply Z.ltb_ge; exact Hcool. }
  rewrite E1; cbn [fst snd].
  set (s2 := mkState (photos st) (pose st) None (showInstructions st) t
               (filter (fun tm => negb (timerId tm =? nextTimer st)%nat) ts1)
               (S (nextTimer st)) (poseOpen st) (cameraRunning st)
               (cleanups st)).
  assert (E2 : fire (nextTimer st) s1 = s2).
  { unfold fire, s1; cbn [timers]; unfold ts1.
    rewrite (find_fresh_timer (timers st) (nextTimer st)
               (mkTimer (nextTimer st) (t + 5000) ClearFocus) Hfresh eq_refl).
    reflexivity. }
  rewrite E2.
  assert (E3 : triggerRandomFocus (t + 5001) r3 s2 =
               (mkState (photos st) (pose st) (Some (id q)) (showInstructions st)
                  (t + 5001)
                  (timers s2 ++
                     [mkTimer (nextTimer s2) (t + 5001 + 5000) ClearFocus])
                  (S (nextTimer s2)) (poseOpen st) (cameraRunning st)
                  (cleanups st), Returned tt)).
  { rewrite triggerRandomFocus_accepted.
    - unfold s2 at 1 2; cbn [photos]; rewrite Hq; reflexivity.
    - unfold s2; cbn [focusedId lastFocusTime truthy orb].
      apply Z.ltb_ge; lia. }
  rewrite E3; cbn [fst snd].
  repeat split.
  - exists p; split; [exact Hin | reflexivity].
  - unfold s1, ts1; cbn [timers]; apply in_or_app; right; left; reflexivity.
  - apply triggerRandomFocus_rejected; unfold s1; cbn [focusedId lastFocusTime].
    apply orb_true_iff; right; apply Z.ltb_lt; lia.
  - apply triggerRandomFocus_rejected; unfold s1;
      cbn [setFocusedId focusedId lastFocusTime].
    apply orb_true_iff; right; apply Z.ltb_lt; lia.
  - exists q; split; [exact Hinq | reflexivity].
Qed.

Lemma focus_cooldown_witness :
  let st1 := fst (triggerRandomFocus 5000 (1 # 2) (mounted 0)) in
  triggerRandomFocus 9999 0 st1 = (st1, Returned tt) /\
  lastFocusTime (fst (triggerRandomFocus 10001 (1 # 4) (fire 1 st1))) = 10001%Z.
Proof.
  destruct (focus_cooldown (mounted 0) 5000 (1 # 2) 0 (1 # 4))
    as (_ & _ & _ & _ & Hearly & _ & _ & _ & _ & Hlate).
  - cbn; discriminate.
  - repeat constructor.
  - discriminate.
  - reflexivity.
  - discriminate.
  - reflexivity.
  - reflexivity.
  - cbn; lia.
  - split; [exact Hearly | exact Hlate].
Defined.




(** C6 (the code departs from it): the cleanup of the MediaPipe effect does
    not touch the timers.  A photo is focused at 5000; the component is
    unmounted: the instructions timer is cleared, the auto-release is still
    pending, and when it fires it runs [setFocusedId(null)]. *)
Theorem auto_release_survives_unmount :
  (forall st, timers (stopPose st) = timers st) /\
  let st1 := fst (triggerRandomFocus 5000 0 (mounted 0)) in
  let st2 := unmount st1 in
  timers st1 =
    [mkTimer 0 8000 HideInstructions; mkTimer 1 10000 ClearFocus] /\
  timers st2 = [mkTimer 1 10000 ClearFocus] /\
  focusedId st2 = Some "photo-0"%string /\
  focusedId (fire 1 st2) = None.
Proof.
  split; [reflexivity|]. cbv zeta. repeat split; reflexivity.
Qed.

Lemma index_map_Some {A} (l : list A) (i : nat) :
  index (map Some l) i = nth_error l i.
Proof.
  unfold index; rewrite nth_error_map.
  now destruct (nth_error l i).
Qed.

(** On an array of landmark records without an empty slot the classifier
    returns. *)
Lemma detectArmsSpread_total (l : list PoseUtils.Landmark) :
  exists g, PoseUtils.detectArmsSpread (Some (map Some l)) = Returned g.
Proof.
  destruct (Nat.lt_ge_cases (List.length (map Some l)) 17) as [H|H].
  - exists false; now apply detectArmsSpread_short.
  - rewrite detectArmsSpread_long by exact H.
    rewrite length_map in H; rewrite !index_map_Some.
    destruct (nth_error l 11) as [ls|] eqn:E11;
      [|apply nth_error_None in E11; lia].
    destruct (nth_error l 12) as [rs|] eqn:E12;
      [|apply nth_error_None in E12; lia].
    destruct (nth_error l 15) as [lw|] eqn:E15;
      [|apply nth_error_None in E15; lia].
    destruct (nth_error l 16) as [rw|] eqn:E16;
      [|apply nth_error_None in E16; lia].
    cbn [deref JS.bind]; eexists; reflexivity.
Qed.


End AppFacts.

(** ** PhotoWall: the layout *)

Section LayoutFacts.
Import Types Three PhotoWall.
Local Open Scope R_scope.

Variable lookAtOrigin : Vector3 -> Euler.

(** Every card is placed at distance [radius] from the origin, whatever the
    number of cards and its index. *)
Lemma card_on_sphere (count : nat) (p : PhotoItem) (i : nat) :
  distanceTo (position (card lookAtOrigin count p i)) origin = 10.
Proof.
  unfold card, distanceTo, origin, radius; cbn [position vx vy vz].
  set (phi := acos _); set (theta := sqrt _ * phi).
  pose proof (sin2_cos2 theta) as Ht; pose proof (sin2_cos2 phi) as Hp.
  unfold Rsqr in Ht, Hp.
  apply sqrt_of_square; [lra|].
  replace ((10 * cos theta * sin phi - 0) ^ 2 +
           (10 * sin theta * sin phi - 0) ^ 2 + (10 * cos phi - 0) ^ 2)
    with (100 * ((sin phi * sin phi) * (sin theta * sin theta + cos theta * cos theta)
                 + cos phi * cos phi)) by ring.
  rewrite Ht, Rmult_1_r, Hp; ring.
Qed.

Lemma in_mapFrom {A B} (f : A -> nat -> B) (l : list A) (i : nat) (b : B) :
  In b (mapFrom f i l) -> exists a k, In a l /\ b = f a k.
Proof.
  revert i; induction l as [|a l IH]; intros i; cbn; [tauto|].
  intros [<- | H].
  - exists a, i; auto.
  - destruct (IH _ H) as (a' & k & Hin & ->); exists a', k; auto.
Qed.

(** The geometry of a card does not depend on the photo it shows. *)
Lemma mapFrom_geometry {C} (g : CardData -> C) (count : nat)
  (Hg : forall p q i, g (card lookAtOrigin count p i) =
                      g (card lookAtOrigin count q i))
  (l1 l2 : list PhotoItem) (i : nat) :
  List.length l1 = List.length l2 ->
  map g (mapFrom (card lookAtOrigin count) i l1) =
  map g (mapFrom (card lookAtOrigin count) i l2).
Proof.
  revert l2 i; induction l1 as [|a l1 IH]; intros [|b l2] i Hlen;
    try discriminate; [reflexivity|].
  cbn [mapFrom map]; f_equal; [apply Hg|].
  apply IH; now injection Hlen.
Qed.

(** C7: every card of the layout lies at distance 10 from the origin, for
    eighty photos as for any other number, and the positions and rotations
    are determined by the number of photos alone. *)
Theorem layout_on_sphere_deterministic :
  (forall photos c,
     In c (cardData lookAtOrigin photos) ->
     distanceTo (position c) origin = 10 /\
     Rabs (distanceTo (position c) origin - 10) <= 1 / 1000000) /\
  (forall photos1 photos2,
     List.length photos1 = List.length photos2 ->
     map position (cardData lookAtOrigin photos1) =
     map position (cardData lookAtOrigin photos2) /\
     map rotation (cardData lookAtOrigin photos1) =
     map rotation (cardData lookAtOrigin photos2)).
Proof.
  split.
  - intros photos c Hin.
    apply in_mapFrom in Hin as (p & i & _ & ->).
    rewrite card_on_sphere; split; [reflexivity|].
    replace (10 - 10) with 0 by ring; rewrite Rabs_R0; lra.
  - intros photos1 photos2 Hlen; unfold cardData; rewrite Hlen.
    split; apply mapFrom_geometry; trivial.
Qed.

End LayoutFacts.

Lemma layout_on_sphere_deterministic_witness :
  (Rabs (Three.distanceTo
          (PhotoWall.position
             (PhotoWall.card Samples.noRotation 80
                (Types.mkPhotoItem "photo-0"
                   "https://picsum.photos/seed/school-0/600/800") 0))
          Three.origin - 10) <= 1 / 1000000)%R /\
  map PhotoWall.position (PhotoWall.cardData Samples.noRotation App.SAMPLE_PHOTOS) =
  map PhotoWall.position (PhotoWall.cardData Samples.noRotation Samples.renamedPhotos).
Proof.
  destruct (layout_on_sphere_deterministic Samples.noRotation) as [Hs Hd].
  split.
  - apply (Hs App.SAMPLE_PHOTOS).
    unfold PhotoWall.cardData, App.SAMPLE_PHOTOS.
    cbn [seq map List.length PhotoWall.mapFrom In]; left; reflexivity.
  - apply (Hd App.SAMPLE_PHOTOS Samples.renamedPhotos); reflexivity.
Defined.

(** ** PhotoCard: the interpolation of one frame *)

Section AnimatorFacts.
Import Three PhotoCard.
Local Open Scope R_scope.

(** One [lerp] multiplies the distance to its target by [|1 - alpha|]. *)
Lemma distanceTo_lerp (a b : Vector3) (alpha : R) :
  distanceTo (lerp a b alpha) b = Rabs (1 - alpha) * distanceTo a b.
Proof.
  unfold distanceTo, lerp; cbn [vx vy vz].
  replace ((vx a + (vx b - vx a) * alpha - vx b) ^ 2 +
           (vy a + (vy b - vy a) * alpha - vy b) ^ 2 +
           (vz a + (vz b - vz a) * alpha - vz b) ^ 2)
    with (Rsqr (1 - alpha) *
          ((vx a - vx b) ^ 2 + (vy a - vy b) ^ 2 + (vz a - vz b) ^ 2))
    by (unfold Rsqr; ring).
  rewrite sqrt_mult.
  - now rewrite sqrt_Rsqr_abs.
  - apply Rle_0_sqr.
  - repeat apply Rplus_le_le_0_compat; apply pow2_ge_0.
Qed.





Variable slerp : Quaternion -> Quaternion -> R -> Quaternion.


End AnimatorFacts.



(** * Further properties of the sources *)

(** ** poseUtils: the centre offset *)

Section CenterOffsetFacts.
Import PoseUtils.
Local Open Scope R_scope.

Lemma index_map {A B} (f : A -> B) (l : list (option A)) (i : nat) :
  index (map (option_map f) l) i = option_map f (index l i).
Proof.
  unfold index; rewrite nth_error_map.
  destruct (nth_error l i) as [[a|]|]; reflexivity.
Qed.

(** On an array that is not empty the offset is computed from the four
    torso slots. *)
Lemma getCenterOffset_nonempty (lms : Landmarks) :
  lms <> [] ->
  getCenterOffset (Some lms) =
  (let '(sumX, sumY, count) :=
     addLandmark lms (addLandmark lms (addLandmark lms
       (addLandmark lms (0, 0, O) 11%nat) 12%nat) 23%nat) 24%nat in
   if (count =? 0)%nat then mkOffset 0 0
   else mkOffset ((sumX / INR count - 0.5) * 2) ((sumY / INR count - 0.5) * 2)).
Proof.
  destruct lms as [|l0 lms']; [congruence | reflexivity].
Qed.

Ltac torso_cases lms :=
  unfold addLandmark;
  destruct (index lms 11) as [a|], (index lms 12) as [b|],
           (index lms 23) as [c|], (index lms 24) as [d|];
  cbn [option_map Nat.eqb INR x y translateLandmark ox oy].

(** X1: when the torso landmarks lie in the unit square of the image, both
    coordinates of the offset lie between -1 and 1. *)
Theorem getCenterOffset_range (landmarks : option Landmarks) :
  (forall lms i lm,
     landmarks = Some lms -> In i relevantIndices -> index lms i = Some lm ->
     0 <= x lm <= 1 /\ 0 <= y lm <= 1) ->
  -1 <= ox (getCenterOffset landmarks) <= 1 /\
  -1 <= oy (getCenterOffset landmarks) <= 1.
Proof.
  intros Hsq.
  destruct landmarks as [lms|]; [|cbn; lra].
  destruct lms as [|l0 lms']; [cbn; lra|].
  assert (Hne : l0 :: lms' <> []) by discriminate.
  revert Hsq Hne; generalize (l0 :: lms'); intros lms Hsq Hne.
  rewrite (getCenterOffset_nonempty lms Hne).
  assert (H11 := fun lm => Hsq lms 11%nat lm eq_refl ltac:(cbn; tauto)).
  assert (H12 := fun lm => Hsq lms 12%nat lm eq_refl ltac:(cbn; tauto)).
  assert (H23 := fun lm => Hsq lms 23%nat lm eq_refl ltac:(cbn; tauto)).
  assert (H24 := fun lm => Hsq lms 24%nat lm eq_refl ltac:(cbn; tauto)).
  clear Hsq; revert H11 H12 H23 H24.
  torso_cases lms; intros H11 H12 H23 H24;
    try (specialize (H11 _ eq_refl)); try (specialize (H12 _ eq_refl));
    try (specialize (H23 _ eq_refl)); try (specialize (H24 _ eq_refl));
    split; lra.
Qed.

Lemma getCenterOffset_range_witness :
  -1 <= ox (getCenterOffset (Some Samples.shouldersOnly)) <= 1 /\
  -1 <= oy (getCenterOffset (Some Samples.shouldersOnly)) <= 1.
Proof.
  apply (getCenterOffset_range (Some Samples.shouldersOnly)).
  intros lms i lm [= <-] Hi Hlm.
  cbn in Hi; destruct Hi as [<-|[<-|[<-|[<-|[]]]]];
    cbn in Hlm; try discriminate;
    injection Hlm as <-; cbn; lra.
Defined.

Lemma translate_nonempty (dx dy : R) (lms : Landmarks) :
  lms <> [] -> translateLandmarks dx dy lms <> [].
Proof. destruct lms; [congruence | discriminate]. Qed.

(** X2: when at least one torso landmark is there, moving every landmark by
    [(dx, dy)] moves the offset by [(2 dx, 2 dy)]. *)
Theorem getCenterOffset_translate (dx dy : R) (lms : Landmarks) (i : nat) :
  In i relevantIndices -> index lms i <> None ->
  ox (getCenterOffset (Some (translateLandmarks dx dy lms))) =
    ox (getCenterOffset (Some lms)) + 2 * dx /\
  oy (getCenterOffset (Some (translateLandmarks dx dy lms))) =
    oy (getCenterOffset (Some lms)) + 2 * dy.
Proof.
  intros Hi Hpresent.
  assert (Hne : lms <> []).
  { intros ->; apply Hpresent; unfold index; now destruct i. }
  rewrite (getCenterOffset_nonempty _ (translate_nonempty dx dy lms Hne)).
  rewrite (getCenterOffset_nonempty lms Hne).
  unfold addLandmark, translateLandmarks; rewrite !index_map.
  cbn in Hi; destruct Hi as [<-|[<-|[<-|[<-|[]]]]]; revert Hpresent;
    destruct (index lms 11) as [a|], (index lms 12) as [b|],
             (index lms 23) as [c|], (index lms 24) as [d|];
    cbn [option_map Nat.eqb INR x y translateLandmark ox oy];
    intros Hpresent; try congruence; split; field.
Qed.

Lemma getCenterOffset_translate_witness :
  ox (getCenterOffset (Some (translateLandmarks 0.1 0.2 Samples.shouldersOnly))) =
    ox (getCenterOffset (Some Samples.shouldersOnly)) + 2 * 0.1 /\
  oy (getCenterOffset (Some (translateLandmarks 0.1 0.2 Samples.shouldersOnly))) =
    oy (getCenterOffset (Some Samples.shouldersOnly)) + 2 * 0.2.
Proof.
  apply (getCenterOffset_translate 0.1 0.2 Samples.shouldersOnly 11);
    [cbn; tauto | cbn; discriminate].
Defined.

End CenterOffsetFacts.

(** ** poseUtils: the classifier *)

Section ClassifierFacts.
Import PoseUtils.
Local Open Scope R_scope.

(** A map applied to every landmark commutes with the classifier as soon as
    it keeps the two tests on the four landmarks read. *)
Lemma detectArmsSpread_map (f : Landmark -> Landmark) (lms : Landmarks) :
  (forall ls rs lw rw,
     isWide (f ls) (f rs) (f lw) (f rw) = isWide ls rs lw rw /\
     areWristsElevated (f ls) (f rs) (f lw) (f rw) =
     areWristsElevated ls rs lw rw) ->
  detectArmsSpread (Some (map (option_map f) lms)) = detectArmsSpread (Some lms).
Proof.
  intros Hf.
  destruct (Nat.lt_ge_cases (List.length lms) 17) as [H|H].
  - rewrite !detectArmsSpread_short; trivial; now rewrite length_map.
  - rewrite !detectArmsSpread_long; trivial; [|now rewrite length_map].
    rewrite !index_map.
    destruct (index lms 11) as [ls|], (index lms 12) as [rs|],
             (index lms 15) as [lw|], (index lms 16) as [rw|];
      cbn [option_map deref JS.bind]; try reflexivity.
    now destruct (Hf ls rs lw rw) as [-> ->].
Qed.


(** X4: the classifier gives the same outcome on the image flipped left to
    right. *)
Theorem detectArmsSpread_mirror (lms : Landmarks) :
  detectArmsSpread (Some (mirrorLandmarks lms)) = detectArmsSpread (Some lms).
Proof.
  apply detectArmsSpread_map; intros ls rs lw rw.
  unfold isWide, areWristsElevated, shoulderWidth, wristDistanceX,
    mirrorLandmark; cbn [x y]; split; [|reflexivity].
  replace ((1 - x ls - (1 - x rs)) ^ 2) with ((x ls - x rs) ^ 2) by ring.
  replace (1 - x lw - (1 - x rw)) with (- (x lw - x rw)) by ring.
  now rewrite Rabs_Ropp.
Qed.

(** X5: the classifier throws exactly on an array of seventeen slots or more
    with an empty slot among 11, 12, 15 and 16; a missing array never
    throws. *)
Theorem detectArmsSpread_throws (lms : Landmarks) :
  detectArmsSpread None = Returned false /\
  (detectArmsSpread (Some lms) = Thrown TypeError <->
   (17 <= List.length lms)%nat /\
   (index lms 11 = None \/ index lms 12 = None \/
    index lms 15 = None \/ index lms 16 = None)).
Proof.
  split; [reflexivity|].
  destruct (Nat.lt_ge_cases (List.length lms) 17) as [H|H].
  - rewrite detectArmsSpread_short by exact H.
    split; [discriminate | intros [H' _]; lia].
  - rewrite detectArmsSpread_long by exact H.
    destruct (index lms 11) as [ls|], (index lms 12) as [rs|],
             (index lms 15) as [lw|], (index lms 16) as [rw|];
      cbn [deref JS.bind]; split; try discriminate; try tauto;
      try (intros [_ [E|[E|[E|E]]]]; discriminate E).
Qed.



End ClassifierFacts.

(** ** App: timers *)

Section TimerFacts.
Import Types App.

Lemma find_filter_other (k : nat) (ts : list Timer) :
  find (fun t => (timerId t =? k)%nat)
       (filter (fun t => negb (timerId t =? k)%nat) ts) = None.
Proof.
  induction ts as [|t ts IH]; [reflexivity|]; cbn.
  destruct (timerId t =? k)%nat eqn:E; cbn; [exact IH|].
  now rewrite E.
Qed.

Lemma timers_runCallback (cb : Callback) (st : State) :
  timers (runCallback cb st) = timers st.
Proof. now destruct cb. Qed.

(** A timer that was cleared does not run, and a timer runs at most
    once: firing it a second time changes nothing. *)
Theorem fire_once (k : nat) (st : State) :
  fire k (clearTimeout k st) = clearTimeout k st /\
  fire k (fire k st) = fire k st.
Proof.
  assert (Hnone : forall s,
            find (fun t => (timerId t =? k)%nat) (timers s) = None ->
            fire k s = s)
    by (intros s Hs; unfold fire; now rewrite Hs).
  split.
  - apply Hnone; cbn [clearTimeout setTimers timers].
    apply find_filter_other.
  - destruct (find (fun t => (timerId t =? k)%nat) (timers st)) as [t|] eqn:E.
    + assert (E1 : fire k st = runCallback (callback t) (clearTimeout k st))
        by (unfold fire; now rewrite E).
      rewrite E1; apply Hnone; rewrite timers_runCallback.
      cbn [clearTimeout setTimers timers]; apply find_filter_other.
    + now rewrite !(Hnone st E).
Qed.

Lemma filter_fresh (n : nat) (ts : list Timer) :
  Forall (fun t => (timerId t < n)%nat) ts ->
  filter (fun t => negb (timerId t =? n)%nat) ts = ts.
Proof.
  induction 1 as [|t ts Hlt _ IH]; [reflexivity|]; cbn.
  rewrite (proj2 (Nat.eqb_neq _ _)) by lia; cbn; now rewrite IH.
Qed.

(** A callback handed to [setTimeout] runs when its timer fires, and
    the queue is then as it was before; had the timer been cleared instead,
    the queue would be the same and the callback would not have run. *)
Theorem setTimeout_fire (cb : Callback) (delay now : Z) (st : State) :
  Forall (fun t => (timerId t < nextTimer st)%nat) (timers st) ->
  let st1 := fst (setTimeout cb delay now st) in
  snd (setTimeout cb delay now st) = Returned (nextTimer st) /\
  fire (nextTimer st) st1 = runCallback cb (clearTimeout (nextTimer st) st1) /\
  timers (fire (nextTimer st) st1) = timers st /\
  timers (clearTimeout (nextTimer st) st1) = timers st /\
  focusedId (clearTimeout (nextTimer st) st1) = focusedId st /\
  showInstructions (clearTimeout (nextTimer st) st1) = showInstructions st.
Proof.
  intros Hfresh; cbv zeta; unfold setTimeout; cbn [fst snd].
  assert (Hts : filter (fun t => negb (timerId t =? nextTimer st)%nat)
                  (timers st ++
                   [mkTimer (nextTimer st) (now + delay) cb]) = timers st).
  { rewrite filter_app, filter_fresh by exact Hfresh.
    cbn; rewrite Nat.eqb_refl; cbn; apply app_nil_r. }
  assert (Hfire : forall s, timers s = timers st ++
                     [mkTimer (nextTimer st) (now + delay) cb] ->
            fire (nextTimer st) s =
            runCallback cb (clearTimeout (nextTimer st) s)).
  { intros s Hs; unfold fire; rewrite Hs.
    now rewrite (find_fresh_timer (timers st) (nextTimer st)
                   (mkTimer (nextTimer st) (now + delay) cb) Hfresh eq_refl). }
  split; [reflexivity|]. split; [now apply Hfire|].
  rewrite Hfire by reflexivity; rewrite timers_runCallback.
  cbn [clearTimeout setTimers timers focusedId showInstructions].
  rewrite Hts; repeat split.
Qed.

Lemma setTimeout_fire_witness :
  timers (fire 1 (fst (setTimeout ClearFocus 5000 0 (mounted 0)))) =
  timers (mounted 0).
Proof.
  destruct (setTimeout_fire ClearFocus 5000 0 (mounted 0))
    as (_ & _ & H & _); [repeat constructor | exact H].
Defined.

End TimerFacts.

(** ** App: the focus state stays consistent *)

Section InvariantFacts.
Import Types App FocusInvariant.

(** A truthy [focusedId] closes the gate. *)
Lemma triggerRandomFocus_while_focused_aux
  (now : Z) (random : Q) (st : State) (f : string) :
  focusedId st = Some f -> f <> EmptyString ->
  triggerRandomFocus now random st = (st, Returned tt).
Proof.
  intros Hf Hne; apply triggerRandomFocus_rejected.
  rewrite Hf; cbn [truthy].
  now rewrite (proj2 (String.eqb_neq _ _) Hne).
Qed.

Lemma photoAt_In (ps : list PhotoItem) (i : Z) (p : PhotoItem) :
  photoAt ps i = Some p -> In p ps.
Proof.
  unfold photoAt; destruct (i <? 0)%Z; [discriminate|]; apply nth_error_In.
Qed.

Lemma NoDup_ids_filter (f : Timer -> bool) (ts : list Timer) :
  NoDup (map timerId ts) -> NoDup (map timerId (filter f ts)).
Proof.
  induction ts as [|t ts IH]; cbn; [trivial|].
  intros H; inversion H as [|? ? Hnin Hnd]; subst.
  destruct (f t); cbn; [|now apply IH].
  constructor; [|now apply IH].
  intros Hin; apply Hnin.
  apply in_map_iff in Hin as (t' & E & Hin).
  apply in_map_iff; exists t'; split; [exact E|].
  now apply filter_In in Hin.
Qed.

Lemma NoDup_ids_inj (ts : list Timer) (a b : Timer) :
  NoDup (map timerId ts) -> In a ts -> In b ts -> timerId a = timerId b ->
  a = b.
Proof.
  induction ts as [|t ts IH]; cbn; [tauto|].
  intros H; inversion H as [|? ? Hnin Hnd]; subst.
  intros [<-|Ha] [<-|Hb] E; trivial.
  - exfalso; apply Hnin; rewrite E; now apply in_map.
  - exfalso; apply Hnin; rewrite <- E; now apply in_map.
  - now apply IH.
Qed.

Lemma filter_swap {A} (f g : A -> bool) (l : list A) :
  filter f (filter g l) = filter g (filter f l).
Proof.
  induction l as [|a l IH]; [reflexivity|]; cbn.
  destruct (f a) eqn:Ef, (g a) eqn:Eg; cbn; rewrite ?Ef, ?Eg, IH; reflexivity.
Qed.

(** Removing timers that hide the instructions leaves the auto-releases. *)
Lemma autoReleases_keep (k : nat) (ts : list Timer) :
  (forall t, In t ts -> timerId t = k -> callback t = HideInstructions) ->
  filter isClearFocus (filter (fun t => negb (timerId t =? k)%nat) ts) =
  filter isClearFocus ts.
Proof.
  intros H; induction ts as [|t ts IH]; [reflexivity|]; cbn.
  assert (IH' := IH (fun t' Hin => H t' (or_intror Hin))).
  destruct (timerId t =? k)%nat eqn:E; cbn.
  - apply Nat.eqb_eq in E.
    unfold isClearFocus at 2; rewrite (H t (or_introl eq_refl) E).
    exact IH'.
  - now rewrite IH'.
Qed.

Lemma truthy_false_idle (st : State) :
  wellFormed st -> truthy (focusedId st) = false -> focusedId st = None.
Proof.
  intros (Hids & _ & Hf & _) Ht; unfold focusConsistent in Hf.
  destruct (focusedId st) as [f|]; [|reflexivity].
  destruct Hf as [(p & Hin & <-) _].
  rewrite Forall_forall in Hids; specialize (Hids p Hin).
  cbn in Ht; apply negb_false_iff, String.eqb_eq in Ht; contradiction.
Qed.

Lemma wellFormed_setPose (p : option PoseData) (st : State) :
  wellFormed st -> wellFormed (setPose p st).
Proof. intros H; exact H. Qed.

Lemma wellFormed_trigger (now : Z) (random : Q) (st : State) :
  wellFormed st -> wellFormed (fst (triggerRandomFocus now random st)).
Proof.
  intros Hwf.
  destruct (truthy (focusedId st) || (now - lastFocusTime st <? 5000)%Z) eqn:G.
  - now rewrite triggerRandomFocus_rejected.
  - rewrite triggerRandomFocus_accepted by exact G.
    apply orb_false_iff in G as [Ht _].
    pose proof (truthy_false_idle st Hwf Ht) as Hidle.
    destruct Hwf as (Hids & [Hfresh Hnd] & Hf & Hc).
    unfold focusConsistent in Hf; rewrite Hidle in Hf.
    destruct (photoAt _ _) as [sel|] eqn:E; cbn [fst].
    + split; [exact Hids|]. split; [split|split].
      * cbn [timers nextTimer]; apply Forall_app; split.
        -- eapply Forall_impl; [|exact Hfresh]; cbn; intros; lia.
        -- constructor; [cbn; lia | constructor].
      * cbn [timers]; rewrite map_app; cbn [map timerId].
        apply NoDup_app; [exact Hnd | repeat constructor; cbn; tauto |].
        intros a Ha [<-|[]].
        apply in_map_iff in Ha as (t & Et & Hin).
        rewrite Forall_forall in Hfresh; specialize (Hfresh t Hin); lia.
      * unfold focusConsistent, autoReleases;
          cbn [focusedId photos timers lastFocusTime].
        split; [exists sel; split; [now apply photoAt_In in E | reflexivity]|].
        exists (nextTimer st).
        unfold autoReleases in Hf; rewrite filter_app, Hf; reflexivity.
      * intros k Hk; cbn [cleanups] in Hk; destruct (Hc k Hk) as [Hlt Hown].
        cbn [nextTimer timers]; split; [lia|].
        intros t Hin Hid; apply in_app_iff in Hin as [Hin|[<-|[]]].
        -- now apply Hown.
        -- cbn in Hid; lia.
    + split; [exact Hids|]. split; [split; assumption|split].
      * unfold focusConsistent; cbn [setLastFocusTime focusedId].
        rewrite Hidle; exact Hf.
      * exact Hc.
Qed.

Lemma wellFormed_fire (k : nat) (st : State) :
  wellFormed st -> wellFormed (fire k st).
Proof.
  intros Hwf; unfold fire.
  destruct (find _ (timers st)) as [t|] eqn:E; [|exact Hwf].
  apply find_some in E as [Hin Hid]; apply Nat.eqb_eq in Hid.
  destruct Hwf as (Hids & [Hfresh Hnd] & Hf & Hc).
  set (ts := filter (fun t0 => negb (timerId t0 =? k)%nat) (timers st)).
  assert (Hfresh' : Forall (fun t0 => (timerId t0 < nextTimer st)%nat) ts).
  { apply Forall_forall; intros t0 H0; apply filter_In in H0 as [H0 _].
    rewrite Forall_forall in Hfresh; now apply Hfresh. }
  assert (Hnd' : NoDup (map timerId ts)) by now apply NoDup_ids_filter.
  assert (Hc' : forall k0, In (ClearInstructionsTimer k0) (cleanups st) ->
            (k0 < nextTimer st)%nat /\
            forall t0, In t0 ts -> timerId t0 = k0 ->
                       callback t0 = HideInstructions).
  { intros k0 Hk0; destruct (Hc k0 Hk0) as [Hlt Hown]; split; [exact Hlt|].
    intros t0 H0; apply filter_In in H0 as [H0 _]; now apply Hown. }
  destruct (callback t) eqn:Ecb.
  - (* the auto-release *)
    split; [exact Hids|]. split; [split; assumption|split; [|exact Hc']].
    unfold focusConsistent, autoReleases;
      cbn [runCallback setFocusedId clearTimeout setTimers focusedId timers].
    fold ts; unfold ts; rewrite filter_swap.
    assert (Ht : In t (autoReleases st))
      by (apply filter_In; split; [exact Hin|]; unfold isClearFocus;
          now rewrite Ecb).
    unfold focusConsistent in Hf; destruct (focusedId st) as [f|].
    + destruct Hf as [_ [k0 Hk0]]; fold (autoReleases st).
      rewrite Hk0 in Ht |- *; destruct Ht as [<-|[]].
      cbn in Hid |- *; rewrite Hid, Nat.eqb_refl; reflexivity.
    + rewrite Hf in Ht; destruct Ht.
  - (* the instructions timer *)
    split; [exact Hids|]. split; [split; assumption|split; [|exact Hc']].
    unfold focusConsistent, autoReleases;
      cbn [runCallback setShowInstructions clearTimeout setTimers focusedId
           timers photos lastFocusTime].
    fold ts; unfold ts; rewrite autoReleases_keep.
    + exact Hf.
    + intros t0 H0 Hid0.
      now rewrite (NoDup_ids_inj (timers st) t0 t Hnd H0 Hin)
        by (rewrite Hid0, Hid; reflexivity).
Qed.

(** Running cleanups touches neither the gallery nor the focus, and only
    removes timers. *)
Lemma runCleanups_frame (cs : list Cleanup) (st : State) :
  let st' := fold_left (fun s c => runCleanup c s) cs st in
  photos st' = photos st /\ focusedId st' = focusedId st /\
  lastFocusTime st' = lastFocusTime st /\ nextTimer st' = nextTimer st /\
  showInstructions st' = showInstructions st /\ pose st' = pose st /\
  cleanups st' = cleanups st /\
  incl (timers st') (timers st).
Proof.
  revert st; induction cs as [|c cs IH]; intros st; cbn [fold_left].
  - repeat split; apply incl_refl.
  - destruct (IH (runCleanup c st)) as (H1 & H2 & H3 & H4 & H5 & H6 & H7 & H8).
    cbv zeta; rewrite H1, H2, H3, H4, H5, H6, H7.
    destruct c; cbn; repeat split; trivial.
    eapply incl_tran; [exact H8|]; cbn; apply incl_filter.
Qed.

Lemma runCleanups_autoReleases (cs : list Cleanup) (st : State) :
  (forall k, In (ClearInstructionsTimer k) cs ->
     forall t, In t (timers st) -> timerId t = k ->
               callback t = HideInstructions) ->
  let st' := fold_left (fun s c => runCleanup c s) cs st in
  autoReleases st' = autoReleases st /\
  (Forall (fun t => (timerId t < nextTimer st)%nat) (timers st) ->
   Forall (fun t => (timerId t < nextTimer st)%nat) (timers st')) /\
  (NoDup (map timerId (timers st)) -> NoDup (map timerId (timers st'))).
Proof.
  revert st; induction cs as [|c cs IH]; intros st Hown; cbn [fold_left].
  - repeat split; trivial.
  - assert (Hown' : forall k, In (ClearInstructionsTimer k) cs ->
              forall t, In t (timers (runCleanup c st)) -> timerId t = k ->
                        callback t = HideInstructions).
    { intros k Hk t Hin; apply (Hown k (or_intror Hk)).
      destruct c; cbn in Hin; [exact Hin|].
      now apply filter_In in Hin. }
    destruct (IH (runCleanup c st) Hown') as (Ha & Hf & Hn); cbv zeta.
    rewrite Ha; destruct c as [|k]; cbn in Hf, Hn |- *.
    + repeat split; assumption.
    + split; [|split].
      * unfold autoReleases; cbn [clearTimeout setTimers timers].
        apply autoReleases_keep, (Hown k); now left.
      * intros H; apply Hf, Forall_forall; intros t Hin.
        apply filter_In in Hin as [Hin _].
        rewrite Forall_forall in H; now apply H.
      * intros H; now apply Hn, NoDup_ids_filter.
Qed.

Lemma wellFormed_unmount (st : State) : wellFormed st -> wellFormed (unmount st).
Proof.
  intros (Hids & [Hfresh Hnd] & Hf & Hc); unfold unmount.
  destruct (runCleanups_frame (cleanups st) st)
    as (H1 & H2 & H3 & H4 & _ & _ & _ & _).
  destruct (runCleanups_autoReleases (cleanups st) st
              (fun k Hk => proj2 (Hc k Hk))) as (Ha & Hfr & Hn).
  cbv zeta in *.
  set (st' := fold_left (fun s c => runCleanup c s) (cleanups st) st) in *.
  split; [cbn [photos]; now rewrite H1|]. split; [split|split].
  - cbn [timers nextTimer]; rewrite H4; now apply Hfr.
  - cbn [timers]; now apply Hn.
  - unfold focusConsistent, autoReleases in *;
      cbn [focusedId timers photos lastFocusTime].
    now rewrite H1, H2, H3, Ha.
  - intros k [].
Qed.

Lemma wellFormed_onResults
  (results : Results) (now : Z) (random : Q) (st : State) :
  wellFormed st -> wellFormed (fst (onResults results now random st)).
Proof.
  intros Hwf; unfold onResults.
  destruct (poseLandmarks results) as [[|l0 lms]|]; try exact Hwf.
  unfold bindM, lift, PoseUtils.Landmarks.
  destruct (PoseUtils.detectArmsSpread _) as [[|]|e]; cbn [modify fst];
    try exact Hwf.
  now apply wellFormed_trigger.
Qed.

(** X7: a consistent focus state stays consistent through any sequence of
    pose samples, timers firing and the unmounting: while a photo is focused
    it is a photo of the gallery and exactly one auto-release is pending,
    due 5000 ms after the trigger; while none is focused no auto-release is
    pending. *)
Theorem wellFormed_run (es : list Event) (st : State) :
  wellFormed st -> wellFormed (run es st).
Proof.
  unfold run; revert st; induction es as [|e es IH]; intros st Hwf;
    cbn [fold_left]; [exact Hwf|].
  apply IH; destruct e as [results now random|k|]; cbn [step].
  - now apply wellFormed_onResults.
  - now apply wellFormed_fire.
  - now apply wellFormed_unmount.
Qed.

(** The sample gallery has no empty id. *)
Lemma SAMPLE_PHOTOS_ids :
  Forall (fun p => id p <> EmptyString) SAMPLE_PHOTOS.
Proof.
  apply Forall_forall; intros p Hin.
  apply in_map_iff in Hin as (i & <- & _); cbn; discriminate.
Qed.

Lemma wellFormed_mounted (now : Z) : wellFormed (mounted now).
Proof.
  split; [exact SAMPLE_PHOTOS_ids|]. split; [split|split].
  - repeat constructor.
  - cbn; repeat constructor; cbn; tauto.
  - reflexivity.
  - intros k [E|[E|[]]]; [discriminate|]; injection E as <-.
    split; [cbn; lia|]. intros t [<-|[]] _; reflexivity.
Qed.

Lemma wellFormed_run_witness :
  wellFormed
    (run [Sample (mkResults (Some Samples.armsSpread)) 5000 (1 # 2);
          Sample (mkResults None) 6000 0;
          Fire 0; Fire 1; Unmount]
         (mounted 0)).
Proof.
  apply (wellFormed_run _ (mounted 0)).
  split; [exact SAMPLE_PHOTOS_ids|]. split; [split|split].
  - repeat constructor.
  - cbn; repeat constructor; cbn; tauto.
  - reflexivity.
  - intros k [E|[E|[]]]; [discriminate|]; injection E as <-.
    split; [cbn; lia|]. intros t [<-|[]] _; reflexivity.
Defined.

(** The parts of the state a sample may change only by an accepted
    trigger. *)
Lemma onResults_cases
  (results : Results) (now : Z) (random : Q) (st : State) :
  let st' := fst (onResults results now random st) in
  (exists p, st' = setPose p st) \/ st' = st \/
  (exists p lms,
     poseLandmarks results = Some lms /\
     PoseUtils.detectArmsSpread (Some lms) = Returned true /\
     st' = fst (triggerRandomFocus now random (setPose p st))).
Proof.
  cbv zeta; unfold onResults.
  destruct (poseLandmarks results) as [[|l0 lms]|];
    try (left; eexists; reflexivity).
  unfold bindM, lift, PoseUtils.Landmarks.
  destruct (PoseUtils.detectArmsSpread (Some (l0 :: lms))) as [[|]|e] eqn:E;
    cbn [modify fst].
  - right; right; eexists; exists (l0 :: lms); repeat split; exact E.
  - left; eexists; reflexivity.
  - right; left; reflexivity.
Qed.

(** X8: while a photo is focused in a consistent state, no pose sample
    changes the focus, whatever it shows, and a timer that fires releases
    the photo only if it is the pending auto-release. *)
Theorem focus_held (st : State) (f : string) :
  wellFormed st -> focusedId st = Some f ->
  (forall results now random,
     let st' := step (Sample results now random) st in
     focusedId st' = Some f /\ lastFocusTime st' = lastFocusTime st /\
     timers st' = timers st) /\
  (forall k,
     focusedId (step (Fire k) st) = Some f \/
     (focusedId (step (Fire k) st) = None /\
      autoReleases st = [mkTimer k (lastFocusTime st + 5000) ClearFocus])).
Proof.
  intros Hwf Hf; split.
  - intros results now random; cbn [step].
    assert (Hne : f <> EmptyString).
    { destruct Hwf as (Hids & _ & Hc & _); unfold focusConsistent in Hc.
      rewrite Hf in Hc; destruct Hc as [(p & Hin & <-) _].
      rewrite Forall_forall in Hids; now apply Hids. }
    destruct (onResults_cases results now random st)
      as [[p ->]|[->|(p & lms & _ & _ & ->)]]; cbn [setPose focusedId lastFocusTime timers];
      try (repeat split; assumption).
    rewrite (triggerRandomFocus_while_focused_aux now random (setPose p st) f Hf Hne).
    repeat split; assumption.
  - intros k; cbn [step]; unfold fire.
    destruct (find _ (timers st)) as [t|] eqn:E; [|now left].
    apply find_some in E as [Hin Hid]; apply Nat.eqb_eq in Hid.
    destruct (callback t) eqn:Ecb; cbn; [right|now left].
    split; [reflexivity|].
    destruct Hwf as (_ & _ & Hc & _); unfold focusConsistent in Hc.
    rewrite Hf in Hc; destruct Hc as [_ [k0 Hk0]].
    assert (Ht : In t (autoReleases st))
      by (apply filter_In; split; [exact Hin|]; unfold isClearFocus;
          now rewrite Ecb).
    rewrite Hk0 in Ht; destruct Ht as [<-|[]].
    cbn in Hid; now rewrite <- Hid.
Qed.

Lemma focus_held_witness :
  focusedId (step (Sample (mkResults (Some Samples.armsSpread)) 20000 0)
               Samples.photo7Focused) = Some "photo-7"%string.
Proof.
  destruct (focus_held Samples.photo7Focused "photo-7") as [H _].
  - split; [exact SAMPLE_PHOTOS_ids|]. split; [split|split].
    + repeat constructor.
    + cbn; repeat constructor; cbn; tauto.
    + split; [|exists 1%nat; reflexivity].
      exists (mkPhotoItem "photo-7"
                "https://picsum.photos/seed/school-7/600/800").
      split; [|reflexivity].
      unfold Samples.photo7Focused, SAMPLE_PHOTOS; cbn [photos].
      apply in_map_iff; exists 7%nat; split; [reflexivity|].
      apply in_seq; lia.
    + intros k [E|[]]; discriminate.
  - reflexivity.
  - exact (proj1 (H _ _ _)).
Defined.

Lemma trigger_throttle (now : Z) (random : Q) (st : State) :
  let st' := fst (triggerRandomFocus now random st) in
  (nextTimer st <= nextTimer st')%nat /\
  (5000 * (Z.of_nat (nextTimer st') - Z.of_nat (nextTimer st)) <=
   lastFocusTime st' - lastFocusTime st)%Z.
Proof.
  cbv zeta.
  destruct (truthy (focusedId st) || (now - lastFocusTime st <? 5000)%Z) eqn:G.
  - rewrite triggerRandomFocus_rejected by exact G; cbn [fst]; lia.
  - rewrite triggerRandomFocus_accepted by exact G.
    apply orb_false_iff in G as [_ G]; apply Z.ltb_ge in G.
    destruct (photoAt _ _); cbn [fst nextTimer lastFocusTime setLastFocusTime];
      lia.
Qed.

Lemma step_throttle (e : Event) (st : State) :
  (nextTimer st <= nextTimer (step e st))%nat /\
  (5000 * (Z.of_nat (nextTimer (step e st)) - Z.of_nat (nextTimer st)) <=
   lastFocusTime (step e st) - lastFocusTime st)%Z.
Proof.
  destruct e as [results now random|k|]; cbn [step].
  - destruct (onResults_cases results now random st)
      as [[p ->]|[->|(p & lms & _ & _ & ->)]];
      try (cbn [setPose nextTimer lastFocusTime]; lia).
    apply (trigger_throttle now random (setPose p st)).
  - unfold fire; destruct (find _ (timers st)) as [t|]; [|lia].
    destruct (callback t);
      cbn [runCallback setFocusedId setShowInstructions clearTimeout
           setTimers nextTimer lastFocusTime]; lia.
  - unfold unmount.
    destruct (runCleanups_frame (cleanups st) st)
      as (_ & _ & H3 & H4 & _); cbv zeta in *.
    cbn [nextTimer lastFocusTime]; rewrite H3, H4; lia.
Qed.

(** X9: triggers are throttled.  Over any sequence of events, each
    auto-release timer that was set accounts for at least 5000 ms between
    the recorded trigger times at the start and at the end. *)
Theorem run_throttle (es : list Event) (st : State) :
  (nextTimer st <= nextTimer (run es st))%nat /\
  (5000 * (Z.of_nat (nextTimer (run es st)) - Z.of_nat (nextTimer st)) <=
   lastFocusTime (run es st) - lastFocusTime st)%Z.
Proof.
  unfold run; revert st; induction es as [|e es IH]; intros st;
    cbn [fold_left]; [lia|].
  destruct (IH (step e st)) as [H1 H2], (step_throttle e st) as [H3 H4]; lia.
Qed.

(** X10: a sample on which the classifier does not answer [true] leaves the
    focus as it is: the focused id, the time of the last trigger and the
    timers are unchanged, whether the sample has no landmarks, too few, no
    gesture, or makes the classifier throw. *)
Theorem onResults_without_gesture
  (results : Results) (now : Z) (random : Q) (st : State) :
  (forall lms, poseLandmarks results = Some lms ->
               PoseUtils.detectArmsSpread (Some lms) <> Returned true) ->
  let st' := fst (onResults results now random st) in
  focusedId st' = focusedId st /\ lastFocusTime st' = lastFocusTime st /\
  timers st' = timers st /\ nextTimer st' = nextTimer st.
Proof.
  intros Hno; cbv zeta.
  destruct (onResults_cases results now random st)
    as [[p ->]|[->|(p & lms & Hl & Hd & _)]];
    try (repeat split; reflexivity).
  now destruct (Hno lms Hl).
Qed.

Lemma onResults_without_gesture_witness :
  focusedId (fst (onResults (mkResults (Some Samples.shouldersOnly)) 5000 0
                    (mounted 0))) = None.
Proof.
  apply (onResults_without_gesture
           (mkResults (Some Samples.shouldersOnly)) 5000 0 (mounted 0)).
  intros lms [= <-]; discriminate.
Defined.

(** X11: with a gallery that is not empty, a random draw in [[0, 1)] and
    landmarks without an empty slot, [onResults] returns: it does not
    throw. *)
Theorem onResults_returns
  (landmarks : option (list PoseUtils.Landmark))
  (now : Z) (random : Q) (st : State) :
  photos st <> [] -> (0 <= random)%Q -> (random < 1)%Q ->
  snd (onResults (mkResults (option_map (map Some) landmarks)) now random st)
  = Returned tt.
Proof.
  intros Hne H0 H1; unfold onResults; cbn [poseLandmarks].
  destruct landmarks as [[|l0 l]|]; cbn [option_map map]; try reflexivity.
  change (Some l0 :: map Some l) with (map Some (l0 :: l)).
  destruct (detectArmsSpread_total (l0 :: l)) as [g Hg].
  unfold bindM, lift, PoseUtils.Landmarks in *; rewrite Hg; cbn [modify].
  destruct g; [|reflexivity].
  set (st1 := setPose _ st).
  destruct (truthy (focusedId st1) || (now - lastFocusTime st1 <? 5000)%Z)
    eqn:G.
  - now rewrite triggerRandomFocus_rejected.
  - rewrite triggerRandomFocus_accepted by exact G.
    destruct (photoAt_random (photos st1) random H0 H1 Hne) as [p [-> _]].
    reflexivity.
Qed.

Lemma onResults_returns_witness :
  snd (onResults (mkResults (option_map (map Some) (Some Samples.tPose)))
         5000 (1 # 2) (mounted 0)) = Returned tt.
Proof.
  apply (onResults_returns (Some Samples.tPose) 5000 (1 # 2) (mounted 0));
    [cbn; discriminate | discriminate | reflexivity].
Defined.

Lemma find_absent (k : nat) (ts : list Timer) :
  find (fun t => (timerId t =? k)%nat) ts = None <->
  forall t, In t ts -> timerId t <> k.
Proof.
  split.
  - intros H t Hin E; apply (find_none _ _ H) in Hin.
    apply Nat.eqb_neq in Hin; contradiction.
  - intros H; induction ts as [|t ts IH]; [reflexivity|]; cbn.
    rewrite (proj2 (Nat.eqb_neq _ _) (H t (or_introl eq_refl))).
    apply IH; intros t' Hin; apply H; now right.
Qed.

Lemma runCleanups_clears (cs : list Cleanup) (k : nat) (st : State) :
  In (ClearInstructionsTimer k) cs ->
  forall t, In t (timers (fold_left (fun s c => runCleanup c s) cs st)) ->
            timerId t <> k.
Proof.
  revert st; induction cs as [|c cs IH]; intros st Hcs; [destruct Hcs|].
  destruct Hcs as [->|Hin]; cbn [fold_left].
  - intros t Ht.
    destruct (runCleanups_frame cs (runCleanup (ClearInstructionsTimer k) st))
      as (_ & _ & _ & _ & _ & _ & _ & Hincl); cbv zeta in Hincl.
    apply Hincl in Ht; cbn in Ht; apply filter_In in Ht as [_ Ht].
    now apply negb_true_iff, Nat.eqb_neq in Ht.
  - now apply IH.
Qed.

(** X12: unmounting cancels the timer of the instructions: its id, held by
    the cleanup of its effect, names no pending timer afterwards, so that
    nothing runs when its time comes, and the unmounting itself does not
    hide the instructions. *)
Theorem unmount_cancels_instructions (k : nat) (st : State) :
  In (ClearInstructionsTimer k) (cleanups st) ->
  fire k (unmount st) = unmount st /\
  showInstructions (unmount st) = showInstructions st /\
  incl (timers (unmount st)) (timers st).
Proof.
  intros Hin.
  destruct (runCleanups_frame (cleanups st) st)
    as (_ & _ & _ & _ & H5 & _ & _ & H8); cbv zeta in *.
  split; [|split; [exact H5 | exact H8]].
  unfold fire.
  rewrite (proj2 (find_absent k (timers (unmount st)))); [reflexivity|].
  unfold unmount; cbn [timers]; now apply runCleanups_clears.
Qed.

Lemma unmount_cancels_instructions_witness :
  fire 0 (unmount (mounted 0)) = unmount (mounted 0).
Proof.
  apply (unmount_cancels_instructions 0 (mounted 0)); cbn; tauto.
Defined.

End InvariantFacts.

(** ** PhotoWall: the cards *)

Section CardFacts.
Import Types Three PhotoWall.
Local Open Scope R_scope.

Variable lookAtOrigin : Vector3 -> Euler.

Lemma nth_error_mapFrom {A B} (f : A -> nat -> B) (l : list A) (i k : nat) :
  nth_error (mapFrom f i l) k =
  option_map (fun a => f a (i + k)%nat) (nth_error l k).
Proof.
  revert i k; induction l as [|a l IH]; intros i [|k]; cbn; trivial.
  - now rewrite Nat.add_0_r.
  - rewrite IH; now rewrite Nat.add_succ_r.
Qed.

Lemma map_mapFrom {A B C} (g : B -> C) (h : A -> C) (f : A -> nat -> B)
  (Hg : forall a i, g (f a i) = h a) (l : list A) (i : nat) :
  map g (mapFrom f i l) = map h l.
Proof.
  revert i; induction l as [|a l IH]; intros i; cbn; [reflexivity|].
  now rewrite Hg, IH.
Qed.

(** X13: the layout has one card per photo, in the order of the gallery,
    with the photo's id and url. *)
Theorem cardData_photos (photos : list PhotoItem) :
  map id (cardData lookAtOrigin photos) = map Types.id photos /\
  map url (cardData lookAtOrigin photos) = map Types.url photos /\
  List.length (cardData lookAtOrigin photos) = List.length photos.
Proof.
  unfold cardData.
  assert (Hid := map_mapFrom id Types.id
                   (card lookAtOrigin (List.length photos))
                   (fun _ _ => eq_refl) photos 0).
  assert (Hurl := map_mapFrom url Types.url
                    (card lookAtOrigin (List.length photos))
                    (fun _ _ => eq_refl) photos 0).
  repeat split; trivial.
  rewrite <- (length_map id), Hid; apply length_map.
Qed.

(** The card of index [i] in a gallery of [count] photos. *)
Lemma cardData_nth (photos : list PhotoItem) (i : nat) (c : CardData) :
  nth_error (cardData lookAtOrigin photos) i = Some c ->
  (i < List.length photos)%nat /\
  exists p, nth_error photos i = Some p /\
            c = card lookAtOrigin (List.length photos) p i.
Proof.
  unfold cardData; rewrite nth_error_mapFrom; cbn [Nat.add].
  destruct (nth_error photos i) as [p|] eqn:E; [|discriminate].
  intros [= <-]; split; [|now exists p].
  apply nth_error_Some; congruence.
Qed.

(** The height of the card of index [i]. *)
Lemma card_height (photos : list PhotoItem) (i : nat) (c : CardData) :
  nth_error (cardData lookAtOrigin photos) i = Some c ->
  vz (position c) = -10 + 20 * INR i / INR (List.length photos).
Proof.
  intros H; apply cardData_nth in H as (Hlt & p & _ & ->).
  unfold card, radius; cbn [position vz].
  assert (Hn : 0 < INR (List.length photos)) by (apply lt_0_INR; lia).
  assert (Hi : 0 <= INR i < INR (List.length photos))
    by (split; [apply pos_INR | now apply lt_INR]).
  rewrite cos_acos.
  - field; lra.
  - assert (0 <= 2 * INR i / INR (List.length photos) < 2).
    { split.
      - apply Rmult_le_pos; [lra | left; now apply Rinv_0_lt_compat].
      - apply (Rmult_lt_reg_r (INR (List.length photos))); [exact Hn|].
        unfold Rdiv; rewrite Rmult_assoc, Rinv_l by lra; lra. }
    lra.
Qed.

(** X14: the cards are evenly spaced in height: card [i] of [n] sits at
    [z = -10 + 20 i / n], from the bottom of the sphere upwards. *)
Theorem cardData_height (photos : list PhotoItem) (i : nat) (c : CardData) :
  nth_error (cardData lookAtOrigin photos) i = Some c ->
  vz (position c) = -10 + 20 * INR i / INR (List.length photos).
Proof. apply card_height. Qed.

(** X15: no two cards of the layout share a position. *)
Theorem cardData_positions_differ
  (photos : list PhotoItem) (i j : nat) (ci cj : CardData) :
  i <> j ->
  nth_error (cardData lookAtOrigin photos) i = Some ci ->
  nth_error (cardData lookAtOrigin photos) j = Some cj ->
  position ci <> position cj.
Proof.
  intros Hij Hi Hj Heq.
  pose proof (card_height photos i ci Hi) as Zi.
  pose proof (card_height photos j cj Hj) as Zj.
  apply cardData_nth in Hi as (Hlt & _).
  rewrite Heq, Zj in Zi.
  assert (Hn : 0 < INR (List.length photos)) by (apply lt_0_INR; lia).
  assert (E : INR j = INR i).
  { apply (Rmult_eq_reg_r (/ INR (List.length photos)));
      [|apply Rinv_neq_0_compat; lra].
    unfold Rdiv in Zi; lra. }
  apply INR_eq in E; congruence.
Qed.

Lemma filter_isFocused (f : string) (photos : list PhotoItem) (count i : nat) :
  map id (filter (isFocused (Some f))
            (mapFrom (card lookAtOrigin count) i photos)) =
  filter (String.eqb f) (map Types.id photos).
Proof.
  revert i; induction photos as [|p ps IH]; intros i; cbn; [reflexivity|].
  destruct (String.eqb f (Types.id p)); cbn; now rewrite IH.
Qed.

Lemma filter_eqb_NoDup (f : string) (l : list string) :
  NoDup l ->
  filter (String.eqb f) l = if in_dec string_dec f l then [f] else [].
Proof.
  induction 1 as [|a l Hnin Hnd IH]; [reflexivity|]; cbn [filter].
  destruct (String.eqb_spec f a) as [<-|Hne].
  - rewrite IH; destruct (in_dec string_dec f l) as [Hin|_]; [contradiction|].
    destruct (in_dec string_dec f (f :: l)) as [_|Hn]; [reflexivity|].
    exfalso; apply Hn; now left.
  - rewrite IH.
    destruct (in_dec string_dec f l) as [Hin|Hn],
             (in_dec string_dec f (a :: l)) as [Hin'|Hn']; trivial.
    + exfalso; apply Hn'; now right.
    + destruct Hin' as [->|Hin']; contradiction.
Qed.

(** X16: when the ids of the gallery are distinct, at most one card is
    drawn focused, and exactly one when [focusedId] is the id of a photo of
    the gallery; no card is when nothing is focused. *)
Theorem one_card_focused (photos : list PhotoItem) (focusedId : option string) :
  NoDup (map Types.id photos) ->
  let focused := filter (isFocused focusedId) (cardData lookAtOrigin photos) in
  (List.length focused <= 1)%nat /\
  (focusedId = None -> focused = []) /\
  (forall p, In p photos -> focusedId = Some (Types.id p) ->
             map id focused = [Types.id p]).
Proof.
  intros Hnd; cbv zeta; unfold cardData.
  destruct focusedId as [f|].
  - pose proof (filter_isFocused f photos (List.length photos) 0) as E.
    rewrite (filter_eqb_NoDup f _ Hnd) in E.
    split; [|split; [discriminate|]].
    + rewrite <- (length_map id), E.
      destruct (in_dec string_dec f (map Types.id photos)); cbn; lia.
    + intros p Hin [= ->]; rewrite E.
      destruct (in_dec string_dec _ _) as [_|Hn]; [reflexivity|].
      exfalso; apply Hn; now apply in_map.
  - assert (E : forall l, filter (isFocused None) l = [])
      by (induction l; [reflexivity | exact IHl]).
    rewrite E; repeat split; cbn; [lia | discriminate].
Qed.

End CardFacts.

Lemma cardData_height_witness :
  (Three.vz (PhotoWall.position
               (PhotoWall.card Samples.noRotation 2
                  (Types.mkPhotoItem "b" "b.png") 1)) =
   -10 + 20 * INR 1 / INR 2)%R.
Proof.
  apply (cardData_height Samples.noRotation Samples.twoPhotos 1); reflexivity.
Defined.

Lemma cardData_positions_differ_witness :
  PhotoWall.position
    (PhotoWall.card Samples.noRotation 2 (Types.mkPhotoItem "a" "a.png") 0) <>
  PhotoWall.position
    (PhotoWall.card Samples.noRotation 2 (Types.mkPhotoItem "b" "b.png") 1).
Proof.
  apply (cardData_positions_differ Samples.noRotation Samples.twoPhotos 0 1);
    [discriminate | reflexivity | reflexivity].
Defined.

Lemma one_card_focused_witness :
  map PhotoWall.id
    (filter (PhotoWall.isFocused (Some "b"%string))
       (PhotoWall.cardData Samples.noRotation Samples.twoPhotos)) =
  ["b"%string].
Proof.
  destruct (one_card_focused Samples.noRotation Samples.twoPhotos
              (Some "b"%string)) as (_ & _ & H).
  - repeat constructor; cbn; intuition discriminate.
  - apply (H (Types.mkPhotoItem "b" "b.png")); [cbn; tauto | reflexivity].
Defined.

(** ** PhotoWall: the rotation of the wall *)

Section WallFacts.
Import Types Three PhotoWall.
Local Open Scope R_scope.

(** The wall turning on its own over the frames [deltas]. *)
Lemma idle_frames (pose : option PoseData) (deltas : list R) (rx ry rz : R) :
  (forall p, pose = Some p -> score p <= 0.3) ->
  fold_left (fun wall delta => frame pose delta wall) deltas (rx, ry, rz) =
  (rx, ry + 0.1 * fold_right Rplus 0 deltas, rz).
Proof.
  intros Hidle; revert ry; induction deltas as [|d ds IH]; intros ry;
    cbn [fold_left fold_right].
  - f_equal; f_equal; ring.
  - assert (E : frame pose d (rx, ry, rz) = (rx, ry + d * 0.1, rz)).
    { unfold frame; destruct pose as [p|]; [|reflexivity].
      rewrite (proj2 (Rltb_false 0.3 (score p))); [reflexivity|].
      specialize (Hidle p eq_refl); lra. }
    rewrite E, IH; f_equal; f_equal; ring.
Qed.

(** X17: without a pose, or with a score of at most 0.3, which is the case
    whenever the orbit controls rotate on their own, the wall turns about
    its vertical axis by 0.1 radian per second: after any number of frames
    the angle has advanced by a tenth of the time elapsed, however the time
    is cut into frames, and the other two angles are unchanged. *)
Theorem wall_idle_rotation (st : App.State) (deltas : list R) (rx ry rz : R) :
  (App.autoRotate st = true ->
   forall p, App.pose st = Some p -> score p <= 0.3) /\
  ((forall p, App.pose st = Some p -> score p <= 0.3) ->
   fold_left (fun wall delta => frame (App.pose st) delta wall) deltas
     (rx, ry, rz) =
   (rx, ry + 0.1 * fold_right Rplus 0 deltas, rz)).
Proof.
  split; [|apply idle_frames].
  unfold App.autoRotate; intros H p Hp; rewrite Hp in H.
  apply Rltb_true in H; lra.
Qed.

Lemma mathLerp_between (a b t lo hi : R) :
  0 <= t <= 1 -> lo <= a <= hi -> lo <= b <= hi ->
  lo <= mathLerp a b t <= hi.
Proof. unfold mathLerp; intros; split; nra. Qed.

Lemma mathLerp_distance (a b t : R) :
  Rabs (mathLerp a b t - b) = Rabs (1 - t) * Rabs (a - b).
Proof.
  unfold mathLerp; rewrite <- Rabs_mult; f_equal; ring.
Qed.

(** X18: while it follows a pose whose offsets lie between -1 and 1, with
    frames of at most a third of a second, a wall tilted by at most 0.3
    about the horizontal axis and turned by at most 0.5 about the vertical
    one stays within these angles; the third angle is never changed. *)
Theorem wall_follow_bounded (p : PoseData) (delta rx ry rz : R) :
  0.3 < score p -> -1 <= Types.x p <= 1 -> -1 <= Types.y p <= 1 ->
  0 <= delta <= 1 / 3 ->
  -0.3 <= rx <= 0.3 -> -0.5 <= ry <= 0.5 ->
  let '(rx', ry', rz') := frame (Some p) delta (rx, ry, rz) in
  -0.3 <= rx' <= 0.3 /\ -0.5 <= ry' <= 0.5 /\ rz' = rz.
Proof.
  intros Hs Hx Hy Hd Hrx Hry; unfold frame.
  rewrite (proj2 (Rltb_true 0.3 (score p)) Hs).
  split; [|split; [|reflexivity]];
    apply mathLerp_between; try lra.
Qed.

(** X19: while it follows a pose, each frame multiplies the distance of the
    two angles to their targets, [0.3 y] and [-0.5 x], by [|1 - 3 delta|]:
    the wall closes in for frames shorter than two thirds of a second and
    reaches the target in one frame of a third of a second. *)
Theorem wall_follow_contracts (p : PoseData) (delta rx ry rz : R) :
  0.3 < score p ->
  let '(rx', ry', rz') := frame (Some p) delta (rx, ry, rz) in
  Rabs (rx' - Types.y p * 0.3) =
    Rabs (1 - delta * 3) * Rabs (rx - Types.y p * 0.3) /\
  Rabs (ry' - - Types.x p * 0.5) =
    Rabs (1 - delta * 3) * Rabs (ry - - Types.x p * 0.5) /\
  (delta = 1 / 3 -> rx' = Types.y p * 0.3 /\ ry' = - Types.x p * 0.5).
Proof.
  intros Hs; unfold frame.
  rewrite (proj2 (Rltb_true 0.3 (score p)) Hs).
  split; [apply mathLerp_distance|]. split; [apply mathLerp_distance|].
  intros ->; unfold mathLerp; split; field.
Qed.

End WallFacts.

Lemma wall_follow_bounded_witness :
  let '(rx', ry', rz') :=
    PhotoWall.frame (Some Samples.seenPose) (1 / 60) (0.1, -0.2, 0)%R in
  (-0.3 <= rx' <= 0.3 /\ -0.5 <= ry' <= 0.5 /\ rz' = 0)%R.
Proof.
  apply (wall_follow_bounded Samples.seenPose (1 / 60) 0.1 (-0.2) 0);
    cbn; lra.
Defined.

Lemma wall_follow_contracts_witness :
  let '(rx', ry', rz') :=
    PhotoWall.frame (Some Samples.seenPose) (1 / 3) (0.1, -0.2, 0)%R in
  (rx' = Types.y Samples.seenPose * 0.3 /\
   ry' = - Types.x Samples.seenPose * 0.5)%R.
Proof.
  pose proof (wall_follow_contracts Samples.seenPose (1 / 3) 0.1 (-0.2) 0
                ltac:(cbn; lra)) as H.
  destruct (PhotoWall.frame (Some Samples.seenPose) (1 / 3) (0.1, -0.2, 0)%R)
    as [[rx' ry'] rz'].
  destruct H as (_ & _ & H); exact (H eq_refl).
Defined.

Lemma wall_idle_rotation_witness :
  fold_left (fun wall delta => PhotoWall.frame (App.pose (App.mounted 0)) delta wall)
    [1 / 60; 1 / 30]%R (0, 0, 0)%R =
  (0, 0 + 0.1 * fold_right Rplus 0 [1 / 60; 1 / 30], 0)%R.
Proof.
  apply (proj2 (wall_idle_rotation (App.mounted 0) [1 / 60; 1 / 30]%R 0 0 0)).
  intros p; discriminate.
Defined.

(** ** PhotoCard: the decay towards the target *)

Section DecayFacts.
Import Three PhotoCard.
Local Open Scope R_scope.

Variable slerp : Quaternion -> Quaternion -> R -> Quaternion.

Lemma lerp_one (a b : Vector3) : lerp a b 1 = b.
Proof.
  destruct b as [bx by_ bz]; unfold lerp; cbn [vx vy vz]; f_equal; ring.
Qed.

(** X20: a card animated towards a fixed target approaches it
    geometrically: after [n] frames of length [delta] the distance of its
    position, and of its scale, to the target is the initial distance times
    [|1 - rate * delta|] to the power [n], with rate 3 in the wall and 7
    when focused; a single frame of length [1 / rate] puts it on the
    target. *)
Theorem frame_decay
  (isFocused : bool) (parent : option Focus)
  (targetPos goalPos : Vector3) (targetQuat : Quaternion)
  (delta : R) (mesh : Transform) (n : nat) :
  (if isFocused then option_map localFocusPos parent else Some targetPos)
    = Some goalPos ->
  let step := frame slerp isFocused parent targetPos targetQuat delta in
  let rate := if isFocused then 7 else 3 in
  let goalScale :=
    if isFocused then mkVector3 4.5 4.5 1 else mkVector3 1 1 1 in
  distanceTo (position (Nat.iter n step mesh)) goalPos =
    Rabs (1 - delta * rate) ^ n * distanceTo (position mesh) goalPos /\
  distanceTo (scale (Nat.iter n step mesh)) goalScale =
    Rabs (1 - delta * rate) ^ n * distanceTo (scale mesh) goalScale /\
  (delta = 1 / rate ->
   position (step mesh) = goalPos /\ scale (step mesh) = goalScale).
Proof.
  intros Hgoal step rate goalScale.
  assert (Hstep : forall m,
            distanceTo (position (step m)) goalPos =
              Rabs (1 - delta * rate) * distanceTo (position m) goalPos /\
            distanceTo (scale (step m)) goalScale =
              Rabs (1 - delta * rate) * distanceTo (scale m) goalScale).
  { intros m; subst step rate goalScale; unfold frame.
    destruct isFocused; [destruct parent as [f|]; [|discriminate]|];
      cbn [option_map] in Hgoal; injection Hgoal as <-;
      cbn [position scale]; split; apply distanceTo_lerp. }
  split; [|split].
  - induction n as [|n IH]; [cbn; ring|].
    rewrite Nat.iter_succ, (proj1 (Hstep _)), IH; cbn [pow]; ring.
  - induction n as [|n IH]; [cbn; ring|].
    rewrite Nat.iter_succ, (proj2 (Hstep _)), IH; cbn [pow]; ring.
  - intros Hd; subst step goalScale; unfold frame.
    assert (Hone : delta * rate = 1)
      by (rewrite Hd; subst rate; destruct isFocused; field).
    subst rate.
    destruct isFocused; [destruct parent as [f|]; [|discriminate]|];
      cbn [option_map] in Hgoal; injection Hgoal as <-;
      cbn [position scale]; rewrite Hone; split; apply lerp_one.
Qed.

End DecayFacts.

Lemma frame_decay_witness :
  (Three.distanceTo
     (PhotoCard.position
        (Nat.iter 3
           (PhotoCard.frame Samples.keepOrientation false None
              (Three.mkVector3 1 0 0) Samples.identityQuat (1 / 60))
           Samples.restingCard))
     (Three.mkVector3 1 0 0) =
   Rabs (1 - 1 / 60 * 3) ^ 3 *
   Three.distanceTo (PhotoCard.position Samples.restingCard)
     (Three.mkVector3 1 0 0))%R.
Proof.
  apply (frame_decay Samples.keepOrientation false None
           (Three.mkVector3 1 0 0) (Three.mkVector3 1 0 0)
           Samples.identityQuat (1 / 60) Samples.restingCard 3 eq_refl).
Defined.

(** ** App: the release of the focus *)

Section ReleaseFacts.
Import Types App FocusInvariant.

(** X21: in a consistent state every focused photo has its release
    pending: there is a timer, due 5000 ms after the trigger, whose firing
    leaves no photo focused and no auto-release pending. *)
Theorem focus_released (st : State) (f : string) :
  wellFormed st -> focusedId st = Some f ->
  exists k,
    In (mkTimer k (lastFocusTime st + 5000) ClearFocus) (timers st) /\
    focusedId (fire k st) = None /\
    autoReleases (fire k st) = [].
Proof.
  intros Hwf Hf.
  pose proof (wellFormed_fire) as Hfire.
  pose proof Hwf as (Hids & [Hfresh Hnd] & Hc & Hcl).
  unfold focusConsistent in Hc; rewrite Hf in Hc; destruct Hc as [_ [k Hk]].
  set (t := mkTimer k (lastFocusTime st + 5000) ClearFocus) in *.
  assert (Hin : In t (timers st)).
  { assert (H : In t (autoReleases st)) by (rewrite Hk; now left).
    now apply filter_In in H. }
  exists k; split; [exact Hin|].
  assert (Hfind : exists t', find (fun t0 => (timerId t0 =? k)%nat) (timers st)
                             = Some t').
  { destruct (find _ (timers st)) as [t'|] eqn:E; [now exists t'|].
    apply (find_none _ _ E) in Hin; cbn in Hin.
    now rewrite Nat.eqb_refl in Hin. }
  destruct Hfind as [t' E].
  pose proof (find_some _ _ E) as [Hin' Hid']; apply Nat.eqb_eq in Hid'.
  assert (Et : t' = t) by (apply (NoDup_ids_inj (timers st)); auto).
  assert (Hnone : focusedId (fire k st) = None)
    by (unfold fire; rewrite E, Et; reflexivity).
  split; [exact Hnone|].
  destruct (Hfire k st Hwf) as (_ & _ & Hc' & _).
  unfold focusConsistent in Hc'; now rewrite Hnone in Hc'.
Qed.

Lemma focus_released_witness :
  exists k,
    In (mkTimer k (lastFocusTime Samples.photo7Focused + 5000) ClearFocus)
       (timers Samples.photo7Focused) /\
    focusedId (fire k Samples.photo7Focused) = None /\
    autoReleases (fire k Samples.photo7Focused) = [].
Proof.
  apply (focus_released Samples.photo7Focused "photo-7").
  - split; [exact SAMPLE_PHOTOS_ids|]. split; [split|split].
    + repeat constructor.
    + cbn; repeat constructor; cbn; tauto.
    + split; [|exists 1%nat; reflexivity].
      exists (mkPhotoItem "photo-7"
                "https://picsum.photos/seed/school-7/600/800").
      split; [|reflexivity].
      unfold Samples.photo7Focused, SAMPLE_PHOTOS; cbn [photos].
      apply in_map_iff; exists 7%nat; split; [reflexivity|].
      apply in_seq; lia.
    + intros k [E|[]]; discriminate.
  - reflexivity.
Defined.

End ReleaseFacts.

(** ** poseUtils: the mirrored image *)

Section MirrorFacts.
Import PoseUtils.
Local Open Scope R_scope.

Lemma mirror_nonempty (lms : Landmarks) :
  lms <> [] -> mirrorLandmarks lms <> [].
Proof. destruct lms; [congruence | discriminate]. Qed.

(** X22: on the image flipped left to right the horizontal offset changes
    its sign and the vertical offset is the same. *)
Theorem getCenterOffset_mirror (landmarks : option Landmarks) :
  ox (getCenterOffset (option_map mirrorLandmarks landmarks)) =
    - ox (getCenterOffset landmarks) /\
  oy (getCenterOffset (option_map mirrorLandmarks landmarks)) =
    oy (getCenterOffset landmarks).
Proof.
  destruct landmarks as [lms|]; [|cbn; split; ring].
  destruct lms as [|l0 lms']; [cbn; split; ring|].
  assert (Hne : l0 :: lms' <> []) by discriminate.
  revert Hne; generalize (l0 :: lms'); intros lms Hne; cbn [option_map].
  rewrite (getCenterOffset_nonempty _ (mirror_nonempty lms Hne)).
  rewrite (getCenterOffset_nonempty lms Hne).
  unfold addLandmark, mirrorLandmarks; rewrite !index_map.
  destruct (index lms 11) as [a|], (index lms 12) as [b|],
           (index lms 23) as [c|], (index lms 24) as [d|];
    cbn [option_map Nat.eqb INR x y mirrorLandmark ox oy];
    split; lra.
Qed.

End MirrorFacts.
